(** * Frame conversions of tools/frameConversion.py

    A shallow embedding of the rotation matrices, the direction cosine
    matrices and the position and velocity conversions, with the
    properties of the specification stated over it.

    Numbers.  numpy computes in IEEE binary64.  The embedding keeps the
    special values (the two infinities and NaN) and takes every finite
    value to be an exact real: rounding, overflow and the sign of zero are
    abstracted.  What is stated over it compares the same operations on
    both sides, or uses of the arithmetic only that a product with zero
    is zero and a sum with zero is the other term, which binary64 has as
    well for finite values.  Where a statement rests on an identity of
    the reals that rounding breaks ([cos^2 + sin^2 = 1]) it says so, and
    the rotation matrix is evaluated a second time in binary64 itself
    ([rot_b64]).

    Names.  The module calls [convertPos_to_canonical] and
    [convertTime_to_canonical] and neither defines nor imports them.
    Python looks a global name up when the call runs; the embedding keeps
    what the two names are bound to at that moment, if anything, and the
    call raises NameError when they are bound to nothing, as in the
    module loaded as it is. *)

From Stdlib Require Import PrimFloat FloatOps FloatAxioms SpecFloat.
From Stdlib Require Import Reals Lra ZArith List RNsatz.
From stdpp Require Import base list.
Import ListNotations.
Open Scope R_scope.

(** ** numpy scalars *)

Inductive float64 : Type :=
| Fin (r : R)
| PInf
| NInf
| NaN.

Definition fneg (x : float64) : float64 :=
  match x with
  | Fin r => Fin (- r)
  | PInf => NInf
  | NInf => PInf
  | NaN => NaN
  end.

Definition fadd (x y : float64) : float64 :=
  match x, y with
  | NaN, _ | _, NaN => NaN
  | Fin a, Fin b => Fin (a + b)
  | PInf, NInf | NInf, PInf => NaN
  | PInf, _ | _, PInf => PInf
  | NInf, _ | _, NInf => NInf
  end.

Definition fsub (x y : float64) : float64 := fadd x (fneg y).

(** An infinity times a finite [a]: invalid at zero, else signed. *)
Definition inf_times (negative : bool) (a : R) : float64 :=
  if Req_dec_T a 0 then NaN
  else if Rlt_dec a 0 then (if negative then PInf else NInf)
       else (if negative then NInf else PInf).

Definition fmul (x y : float64) : float64 :=
  match x, y with
  | NaN, _ | _, NaN => NaN
  | Fin a, Fin b => Fin (a * b)
  | Fin a, PInf | PInf, Fin a => inf_times false a
  | Fin a, NInf | NInf, Fin a => inf_times true a
  | PInf, PInf | NInf, NInf => PInf
  | PInf, NInf | NInf, PInf => NInf
  end.

(** Division as numpy does it: dividing by zero raises nothing, it gives
    NaN for 0/0 and an infinity otherwise (with a RuntimeWarning). *)
Definition fdiv (x y : float64) : float64 :=
  match x, y with
  | NaN, _ | _, NaN => NaN
  | Fin a, Fin b =>
      if Req_dec_T b 0 then
        if Req_dec_T a 0 then NaN
        else if Rlt_dec a 0 then NInf else PInf
      else Fin (a / b)
  | Fin _, PInf | Fin _, NInf => Fin 0
  | PInf, Fin b => if Rlt_dec b 0 then NInf else PInf
  | NInf, Fin b => if Rlt_dec b 0 then PInf else NInf
  | _, _ => NaN
  end.

Definition fsqrt (x : float64) : float64 :=
  match x with
  | Fin r => if Rlt_dec r 0 then NaN else Fin (sqrt r)
  | PInf => PInf
  | NInf => NaN
  | NaN => NaN
  end.

Definition np_cos (x : float64) : float64 :=
  match x with Fin r => Fin (cos r) | _ => NaN end.

Definition np_sin (x : float64) : float64 :=
  match x with Fin r => Fin (sin r) | _ => NaN end.

Definition np_arctan2 (y x : float64) : float64 :=
  match y, x with
  | NaN, _ | _, NaN => NaN
  | Fin b, Fin a =>
      if Rlt_dec 0 a then Fin (atan (b / a))
      else if Rlt_dec a 0 then
             (if Rlt_dec b 0 then Fin (atan (b / a) - PI)
              else Fin (atan (b / a) + PI))
      else if Rlt_dec 0 b then Fin (PI / 2)
      else if Rlt_dec b 0 then Fin (- (PI / 2))
      else Fin 0
  | Fin _, PInf => Fin 0
  | Fin b, NInf => if Rlt_dec b 0 then Fin (- PI) else Fin PI
  | PInf, Fin _ => Fin (PI / 2)
  | NInf, Fin _ => Fin (- (PI / 2))
  | PInf, PInf => Fin (PI / 4)
  | NInf, PInf => Fin (- (PI / 4))
  | PInf, NInf => Fin (3 * PI / 4)
  | NInf, NInf => Fin (- (3 * PI / 4))
  end.

(** ** Exceptions *)

Inductive exn : Type :=
| TypeError
| NameError
| IndexError
| ValueError
| UnboundLocalError
| CollaboratorError.

Inductive result (A : Type) : Type :=
| Ok (a : A)
| Raise (e : exn).
Arguments Ok {A} a.
Arguments Raise {A} e.

Definition bind {A B : Type} (m : result A) (k : A -> result B) : result B :=
  match m with
  | Ok a => k a
  | Raise e => Raise e
  end.

Notation "'let*' x ':=' m 'in' k" := (bind m (fun x => k))
  (at level 10, x name, m at level 100, k at level 200).

(** ** Fixed-shape arrays: 3-vectors and 3x3 matrices *)

Record vec3 : Type := V3 { c0 : float64; c1 : float64; c2 : float64 }.

Record mat3 : Type := M3 { row0 : vec3; row1 : vec3; row2 : vec3 }.

Definition vmap (f : float64 -> float64) (v : vec3) : vec3 :=
  V3 (f (c0 v)) (f (c1 v)) (f (c2 v)).

Definition vzip (f : float64 -> float64 -> float64) (u v : vec3) : vec3 :=
  V3 (f (c0 u) (c0 v)) (f (c1 u) (c1 v)) (f (c2 u) (c2 v)).

Definition vneg : vec3 -> vec3 := vmap fneg.
Definition vadd : vec3 -> vec3 -> vec3 := vzip fadd.
Definition vscale (s : float64) : vec3 -> vec3 := vmap (fun x => fmul s x).
Definition vdiv (v : vec3) (s : float64) : vec3 := vmap (fun x => fdiv x s) v.

(** [np.dot] of two vectors: the products are summed left to right. *)
Definition vdot (u v : vec3) : float64 :=
  fadd (fadd (fmul (c0 u) (c0 v)) (fmul (c1 u) (c1 v))) (fmul (c2 u) (c2 v)).

Definition np_linalg_norm (v : vec3) : float64 := fsqrt (vdot v v).

Definition np_cross (a b : vec3) : vec3 :=
  V3 (fsub (fmul (c1 a) (c2 b)) (fmul (c2 a) (c1 b)))
     (fsub (fmul (c2 a) (c0 b)) (fmul (c0 a) (c2 b)))
     (fsub (fmul (c0 a) (c1 b)) (fmul (c1 a) (c0 b))).

Definition col (j : nat) (m : mat3) : vec3 :=
  let pick (v : vec3) :=
    match j with O => c0 v | S O => c1 v | _ => c2 v end in
  V3 (pick (row0 m)) (pick (row1 m)) (pick (row2 m)).

(** [m.T] *)
Definition transpose (m : mat3) : mat3 :=
  M3 (col 0 m) (col 1 m) (col 2 m).

(** [m @ v] *)
Definition matvec (m : mat3) (v : vec3) : vec3 :=
  V3 (vdot (row0 m) v) (vdot (row1 m) v) (vdot (row2 m) v).

(** [a @ b] *)
Definition matmul (a b : mat3) : mat3 :=
  let r (u : vec3) :=
    V3 (vdot u (col 0 b)) (vdot u (col 1 b)) (vdot u (col 2 b)) in
  M3 (r (row0 a)) (r (row1 a)) (r (row2 a)).

Definition mmap (f : float64 -> float64) (m : mat3) : mat3 :=
  M3 (vmap f (row0 m)) (vmap f (row1 m)) (vmap f (row2 m)).

Definition madd (a b : mat3) : mat3 :=
  M3 (vadd (row0 a) (row0 b)) (vadd (row1 a) (row1 b))
     (vadd (row2 a) (row2 b)).

(** [m * s], a matrix times a scalar, element by element *)
Definition mscale (m : mat3) (s : float64) : mat3 :=
  mmap (fun x => fmul x s) m.

Definition np_identity3 : mat3 :=
  M3 (V3 (Fin 1) (Fin 0) (Fin 0))
     (V3 (Fin 0) (Fin 1) (Fin 0))
     (V3 (Fin 0) (Fin 0) (Fin 1)).

(** ** Rotation matrices *)

(** [rot(th, axis)].  No branch of the source assigns [rot_th] for an axis
    other than 1, 2 and 3, and the [return] then raises
    UnboundLocalError. *)
Definition rot (th : float64) (axis : Z) : result mat3 :=
  if (axis =? 1)%Z then
    Ok (M3 (V3 (Fin 1) (Fin 0) (Fin 0))
           (V3 (Fin 0) (np_cos th) (np_sin th))
           (V3 (Fin 0) (fneg (np_sin th)) (np_cos th)))
  else if (axis =? 2)%Z then
    Ok (M3 (V3 (np_cos th) (Fin 0) (fneg (np_sin th)))
           (V3 (Fin 0) (Fin 1) (Fin 0))
           (V3 (np_sin th) (Fin 0) (np_cos th)))
  else if (axis =? 3)%Z then
    Ok (M3 (V3 (np_cos th) (np_sin th) (Fin 0))
           (V3 (fneg (np_sin th)) (np_cos th) (Fin 0))
           (V3 (Fin 0) (Fin 0) (Fin 1)))
  else Raise UnboundLocalError.

(** ** numpy arrays of at most two dimensions

    The arguments the source documents are floats, 3-vectors and n x 3
    arrays.  [A2 ncols rows] has shape [(length rows, ncols)]; it is well
    formed when every row has [ncols] entries. *)

Inductive ndarray : Type :=
| A0 (x : float64)
| A1 (v : list float64)
| A2 (ncols : nat) (rows : list (list float64)).

Definition wf_ndarray (a : ndarray) : Prop :=
  match a with
  | A2 ncols rows => Forall (fun r => length r = ncols) rows
  | _ => True
  end.

(** [len(a.shape)] *)
Definition ndim (a : ndarray) : nat :=
  match a with A0 _ => 0 | A1 _ => 1 | A2 _ _ => 2 end.

(** [a.shape[0]]: the shape of a zero-dimensional array is the empty
    tuple. *)
Definition shape0 (a : ndarray) : result nat :=
  match a with
  | A0 _ => Raise IndexError
  | A1 v => Ok (length v)
  | A2 _ rows => Ok (length rows)
  end.

(** [len(a)] *)
Definition np_len (a : ndarray) : result nat :=
  match a with
  | A0 _ => Raise TypeError
  | A1 v => Ok (length v)
  | A2 _ rows => Ok (length rows)
  end.

(** [a.size] *)
Definition size (a : ndarray) : nat :=
  match a with
  | A0 _ => 1
  | A1 v => length v
  | A2 ncols rows => length rows * ncols
  end.

(** [a[i]] where the source reads a number out of a vector *)
Definition item1 (a : ndarray) (i : nat) : result float64 :=
  match a with
  | A1 v => match v !! i with Some x => Ok x | None => Raise IndexError end
  | _ => Raise IndexError
  end.

(** [a[t, j]]: too many indices for fewer than two dimensions, out of
    bounds otherwise; IndexError both. *)
Definition item2 (a : ndarray) (t j : nat) : result float64 :=
  match a with
  | A2 _ rows =>
      match rows !! t with
      | Some r => match r !! j with Some x => Ok x | None => Raise IndexError end
      | None => Raise IndexError
      end
  | _ => Raise IndexError
  end.

(** [a[t, :]] *)
Definition rowslice (a : ndarray) (t : nat) : result (list float64) :=
  match a with
  | A2 _ rows =>
      match rows !! t with Some r => Ok r | None => Raise IndexError end
  | _ => Raise IndexError
  end.

(** [len(a)] and [a[t]] together: the sub-arrays a loop over
    [range(len(a))] reads. *)
Definition subarrays (a : ndarray) : result (list ndarray) :=
  match a with
  | A0 _ => Raise TypeError
  | A1 v => Ok (map A0 v)
  | A2 _ rows => Ok (map A1 rows)
  end.

(** [rot] builds its matrix with [np.array] from [np.cos(th)],
    [np.sin(th)] and float literals.  With [th] an array of one dimension
    or more the nested sequence is ragged, and numpy (1.24 and later)
    raises ValueError. *)
Definition as_scalar (a : ndarray) : result float64 :=
  match a with
  | A0 x => Ok x
  | _ => Raise ValueError
  end.

Definition list_of_vec3 (v : vec3) : list float64 := [c0 v; c1 v; c2 v].

Definition rows_of_mat3 (m : mat3) : list (list float64) :=
  [list_of_vec3 (row0 m); list_of_vec3 (row1 m); list_of_vec3 (row2 m)].

(** A one-dimensional array as the right operand of a product with a
    3x3 matrix: the shapes align only at length 3. *)
Definition vec3_of_list (v : list float64) : result vec3 :=
  match v with
  | [a; b; c] => Ok (V3 a b c)
  | _ => Raise ValueError
  end.

(** [a.T] *)
Definition np_T (a : ndarray) : ndarray :=
  match a with
  | A2 ncols rows =>
      A2 (length rows)
         (map (fun j => map (fun r => nth j r NaN) rows) (seq 0 ncols))
  | _ => a
  end.

(** The product of a 3x3 matrix with three rows of equal length. *)
Fixpoint rows_product (u : vec3) (r0 r1 r2 : list float64) : list float64 :=
  match r0, r1, r2 with
  | a :: r0', b :: r1', c :: r2' =>
      vdot u (V3 a b c) :: rows_product u r0' r1' r2'
  | _, _, _ => []
  end.

(** [m @ x] *)
Definition np_matmul (m : mat3) (x : ndarray) : result ndarray :=
  match x with
  | A0 _ => Raise ValueError
  | A1 v => let* w := vec3_of_list v in Ok (A1 (list_of_vec3 (matvec m w)))
  | A2 ncols rows =>
      match rows with
      | [r0; r1; r2] =>
          Ok (A2 ncols [rows_product (row0 m) r0 r1 r2;
                        rows_product (row1 m) r0 r1 r2;
                        rows_product (row2 m) r0 r1 r2])
      | _ => Raise ValueError
      end
  end.

(** [np.dot(m, x)]: as [m @ x], but a scalar [x] scales the matrix. *)
Definition np_dot (m : mat3) (x : ndarray) : result ndarray :=
  match x with
  | A0 s => Ok (A2 3 (rows_of_mat3 (mscale m s)))
  | _ => np_matmul m x
  end.

(** [a + w] for [w] of shape (3,), with numpy's broadcasting. *)
Definition add_row (r : list float64) (w : vec3) : result (list float64) :=
  match r with
  | [a; b; c] => Ok [fadd a (c0 w); fadd b (c1 w); fadd c (c2 w)]
  | [a] => Ok [fadd a (c0 w); fadd a (c1 w); fadd a (c2 w)]
  | _ => Raise ValueError
  end.

Fixpoint add_rows (rows : list (list float64)) (w : vec3)
  : result (list (list float64)) :=
  match rows with
  | [] => Ok []
  | r :: rows' =>
      let* r' := add_row r w in
      let* rest := add_rows rows' w in
      Ok (r' :: rest)
  end.

Definition np_add_vec3 (a : ndarray) (w : vec3) : result ndarray :=
  match a with
  | A0 s => Ok (A1 [fadd s (c0 w); fadd s (c1 w); fadd s (c2 w)])
  | A1 v => let* r := add_row v w in Ok (A1 r)
  | A2 ncols rows =>
      if (ncols =? 3)%nat || (ncols =? 1)%nat then
        let* rows' := add_rows rows w in Ok (A2 3 rows')
      else Raise ValueError
  end.

(** [np.zeros([n, 3])] *)
Definition np_zeros3 (n : nat) : list (list float64) :=
  replicate n [Fin 0; Fin 0; Fin 0].

(** [for t in range(n): body], threading the array the body assigns to. *)
Fixpoint for_range {S : Type} (body : nat -> S -> result S)
  (ts : list nat) (s : S) : result S :=
  match ts with
  | [] => Ok s
  | t :: ts' => let* s' := body t s in for_range body ts' s'
  end.

(** ** Velocity conversions *)

(** [np.dot(At, v.T) + np.dot(At, drR.T)] for [drR] built by [np.array]
    from three numbers. *)
Definition transport (At : mat3) (v : ndarray) (drR : vec3) : result ndarray :=
  let* a := np_dot At (np_T v) in
  np_add_vec3 a (matvec At drR).

(** The value the batch loop of [rot2inertV] assigns to [vI[t, :]]. *)
Definition rot2inertV_row (rR vR : ndarray) (t_norm : float64) (t : nat)
  : result (list float64) :=
  let* C := rot t_norm 3 in
  let At := transpose C in
  let* y := item2 rR t 1 in
  let* x := item2 rR t 0 in
  let drR := V3 (fneg y) x (Fin 0) in
  let* row := rowslice vR t in
  let* w := vec3_of_list row in
  Ok (list_of_vec3 (vadd (matvec At w) (matvec At drR))).

(** [rot2inertV(rR, vR, t_norm)], with [t_norm] the float of the
    docstring. *)
Definition rot2inertV (rR vR : ndarray) (t_norm : float64) : result ndarray :=
  let* n0 := shape0 rR in
  if (n0 =? 3)%nat && (ndim rR =? 1)%nat then
    let* C := rot t_norm 3 in
    let At := transpose C in
    let* y := item1 rR 1 in
    let* x := item1 rR 0 in
    let drR := V3 (fneg y) x (Fin 0) in
    transport At vR drR
  else
    let* n := np_len rR in
    let* vI :=
      for_range
        (fun t vI =>
           let* row := rot2inertV_row rR vR t_norm t in
           Ok (<[t := row]> vI))
        (seq 0 n) (np_zeros3 n) in
    Ok (A2 3 vI).

(** After the size test [inert2rotV] reads [t_norm] only through
    [len(t_norm)] and [t_norm[t]]: [np.array([t_norm])] is the sequence
    whose one item is [t_norm]. *)
Definition inert2rotV_thetas (t_norm : ndarray) : result (list ndarray) :=
  if (size t_norm =? 1)%nat then Ok [t_norm] else subarrays t_norm.

(** The value the loop of [inert2rotV] assigns to [vR[t, :]]. *)
Definition inert2rotV_row (rR vI : ndarray) (thetas : list ndarray) (t : nat)
  : result (list float64) :=
  let* th_t :=
    match thetas !! t with
    | Some a => as_scalar a
    | None => Raise IndexError
    end in
  let* At := rot th_t 3 in
  let* row := rowslice vI t in
  let* w := vec3_of_list row in
  let* y := item2 rR t 1 in
  let* x := item2 rR t 0 in
  Ok (list_of_vec3 (vadd (matvec At w) (V3 y (fneg x) (Fin 0)))).

(** [inert2rotV(rR, vI, t_norm)] *)
Definition inert2rotV (rR vI t_norm : ndarray) : result ndarray :=
  let* thetas := inert2rotV_thetas t_norm in
  let n := length thetas in
  let* vR :=
    for_range
      (fun t vR =>
         let* row := inert2rotV_row rR vI thetas t in
         Ok (<[t := row]> vR))
      (seq 0 n) (np_zeros3 n) in
  Ok (A2 3 vR).

(** ** Times, the ephemeris kernel and the collaborators *)

Module Time.

(** An astropy [Time]: the Julian date and the value in its own format
    (Modified Julian Date, days). *)
Record t : Type := mk { jd : float64; value : float64 }.

End Time.

Module TimeArray.

(** An astropy [Time] holding a sequence of epochs. *)
Record t : Type := mk { value : list float64 }.

End TimeArray.

(** [kernel[i, j].compute(jd)], in km; the lookup may fail. *)
Definition Kernel : Type := Z -> Z -> float64 -> result vec3.

(** What the module takes from elsewhere: the frame transform of
    astropy, and the two converters to canonical units.  The module
    calls the converters by their global names and neither defines nor
    imports them: each field holds what the name is bound to in the
    namespace of the module when the call runs, [None] when it is bound
    to nothing. *)
Class Collaborators : Type := {
  (** [SkyCoord(x, y, z, unit='km', frame='icrs', obstime=t)
      .transform_to(GCRS(obstime=t)).cartesian.get_xyz()] *)
  transform_to_gcrs : vec3 -> Time.t -> result vec3;
  (** the same from [frame='gcrs'] to [ICRS(obstime=t)] *)
  transform_to_icrs : vec3 -> Time.t -> result vec3;
  (** the global name [convertPos_to_canonical]: from a length in km to
      canonical distance units *)
  convertPos_to_canonical : option (float64 -> float64);
  (** the global name [convertTime_to_canonical]: from a duration in
      days to canonical time units *)
  convertTime_to_canonical : option (float64 -> float64)
}.

(** The lookup of a global name, which comes before the evaluation of the
    arguments of a call: NameError when the name is bound to nothing. *)
Definition global_name {A : Type} (binding : option A) : result A :=
  match binding with
  | Some f => Ok f
  | None => Raise NameError
  end.

(** Modelled from the spec: the distance unit DU = 384400 km of the
    UnitConverter; the source has it in a comment only. *)
Definition DU : R := 384400.

(** Modelled from the spec: the time unit TU = 27.321582 days. *)
Definition TU : R := 27321582 / 1000000.

(** Modelled from the spec: [toCanonicalDistance(x) = x / DU]; the
    function [convertPos_to_canonical] is not in the module. *)
Definition toCanonicalDistance (x : float64) : float64 := fdiv x (Fin DU).

(** Modelled from the spec: [toCanonicalTime(dt) = (dt / TU) * 2 pi]; the
    function [convertTime_to_canonical] is not in the module. *)
Definition toCanonicalTime (dt : float64) : float64 :=
  fmul (fdiv dt (Fin TU)) (Fin (2 * PI)).

(** The collaborators of the specification: the two names bound to its
    converters, with frame transforms that leave the vector as it is. *)
Definition spec_collaborators : Collaborators :=
  {| transform_to_gcrs := fun pos _ => Ok pos;
     transform_to_icrs := fun pos _ => Ok pos;
     convertPos_to_canonical := Some toCanonicalDistance;
     convertTime_to_canonical := Some toCanonicalTime |}.

(** The module loaded as it is: the two names are bound to nothing.  The
    frame transform is astropy's; it is given by the vector it returns. *)
Definition module_as_loaded (gcrs : vec3) : Collaborators :=
  {| transform_to_gcrs := fun _ _ => Ok gcrs;
     transform_to_icrs := fun _ _ => Ok gcrs;
     convertPos_to_canonical := None;
     convertTime_to_canonical := None |}.

Section FrameConversion.
Context {collab : Collaborators}.

(** [icrs2gcrs(pos, currentTime)], with [pos] in km. *)
Definition icrs2gcrs (pos : vec3) (currentTime : Time.t) : result vec3 :=
  transform_to_gcrs pos currentTime.

(** [gcrs2icrs(pos, currentTime)], with [pos] in km. *)
Definition gcrs2icrs (pos : vec3) (currentTime : Time.t) : result vec3 :=
  transform_to_icrs pos currentTime.

(** [equinox.value[0]] *)
Definition first_epoch (equinox : TimeArray.t) : result float64 :=
  match TimeArray.value equinox !! 0%nat with
  | Some e => Ok e
  | None => Raise IndexError
  end.

(** [body2geo(currentTime, kernel, equinox)] *)
Definition body2geo (currentTime : Time.t) (kernel : Kernel)
  (equinox : TimeArray.t) : result mat3 :=
  let* tmp := kernel 0%Z 3%Z (Time.jd currentTime) in
  let* gcrs := icrs2gcrs tmp currentTime in
  let tmp_rG := vneg gcrs in
  let* convert_x := global_name convertPos_to_canonical in
  let tmp_x := convert_x (c0 tmp_rG) in
  let* convert_y := global_name convertPos_to_canonical in
  let tmp_y := convert_y (c1 tmp_rG) in
  let* convert_z := global_name convertPos_to_canonical in
  let tmp_z := convert_z (c2 tmp_rG) in
  let r_earth_bary_G := V3 tmp_x tmp_y tmp_z in
  let mu_star := np_linalg_norm r_earth_bary_G in
  let r_earth_bary_R := vscale mu_star (V3 (Fin (-1)) (Fin 0) (Fin 0)) in
  let* e0 := first_epoch equinox in
  let dt := fsub (Time.value currentTime) e0 in
  let* convert_t := global_name convertTime_to_canonical in
  let theta := convert_t dt in
  let* C_B2R := rot theta 3 in
  let C_R2B := transpose C_B2R in
  let r_earth_bary_B := matvec C_R2B r_earth_bary_R in
  let n_vec := np_cross r_earth_bary_B r_earth_bary_G in
  let n_hat := vdiv n_vec (np_linalg_norm n_vec) in
  let r_sin := fdiv (np_linalg_norm n_vec) (fmul mu_star mu_star) in
  let r_cos :=
    vdot (vdiv r_earth_bary_B mu_star) (vdiv r_earth_bary_G mu_star) in
  let r_theta := np_arctan2 r_sin r_cos in
  let r_skew :=
    M3 (V3 (Fin 0) (fneg (c2 n_hat)) (c1 n_hat))
       (V3 (c2 n_hat) (Fin 0) (fneg (c0 n_hat)))
       (V3 (fneg (c1 n_hat)) (c0 n_hat) (Fin 0)) in
  Ok (madd (madd np_identity3 (mscale r_skew r_sin))
           (mscale (matmul r_skew r_skew) (fsub (Fin 1) r_cos))).

(** [body2rot(currentTime, equinox)] *)
Definition body2rot (currentTime : Time.t) (equinox : TimeArray.t)
  : result mat3 :=
  let* e0 := first_epoch equinox in
  let dt := fsub (Time.value currentTime) e0 in
  let* convert_t := global_name convertTime_to_canonical in
  let theta := convert_t dt in
  let* C_I2R := rot theta 3 in
  Ok C_I2R.

(** A call binds its positional arguments to the parameters in order;
    a parameter without default that is left over raises TypeError
    before the body runs. *)
Definition required {A : Type} (arg : option A) : result A :=
  match arg with
  | Some a => Ok a
  | None => Raise TypeError
  end.

Definition call_body2geo (currentTime : option Time.t)
  (kernel : option Kernel) (equinox : option TimeArray.t) : result mat3 :=
  let* t := required currentTime in
  let* k := required kernel in
  let* e := required equinox in
  body2geo t k e.

Definition call_body2rot (currentTime : option Time.t)
  (equinox : option TimeArray.t) : result mat3 :=
  let* t := required currentTime in
  let* e := required equinox in
  body2rot t e.

(** ** Position conversions

    Each of the four calls its matrix function as [body2geo(currentTime)]
    or [body2rot(currentTime)], with the one argument. *)

Definition gcrs2inert (pos : ndarray) (currentTime : Time.t)
  : result ndarray :=
  let* C_B2G := call_body2geo (Some currentTime) None None in
  let C_G2B := transpose C_B2G in
  np_matmul C_G2B pos.

(** [C_G2B] is read and never assigned in this function. *)
Definition inert2gcrs (pos : ndarray) (currentTime : Time.t)
  : result ndarray :=
  let* C_B2G := call_body2geo (Some currentTime) None None in
  let* C_G2B := (Raise NameError : result mat3) in
  np_matmul C_G2B pos.

Definition inert2rotP (pos : ndarray) (currentTime : Time.t)
  : result ndarray :=
  let* C_I2R := call_body2rot (Some currentTime) None in
  np_matmul C_I2R pos.

Definition rot2inertP (pos : ndarray) (currentTime : Time.t)
  : result ndarray :=
  let* C_I2R := call_body2rot (Some currentTime) None in
  let C_R2I := transpose C_I2R in
  np_matmul C_R2I pos.

End FrameConversion.


(** ** Names for what the functions compute on the way

    The statements below speak of the intermediate values of the
    functions above; these definitions name them. *)

(** The loop [for t in range(n): a[t, :] = row(t)] of the two velocity
    conversions. *)
Definition assign_loop {A : Type} (row : nat -> result A) (ts : list nat)
  (s : list A) : result (list A) :=
  for_range (fun t a => let* r := row t in Ok (<[t := r]> a)) ts s.

(** The rows of a result, and the row [rot2inertV] returns for one
    sample pair. *)
Definition row_of (m : result (list float64)) : list float64 :=
  match m with Ok r => r | Raise _ => [] end.

Definition single_row (t_norm : float64)
  (rv : list float64 * list float64) : list float64 :=
  match rot2inertV (A1 rv.1) (A1 rv.2) t_norm with
  | Ok (A1 row) => row
  | _ => []
  end.

Definition nan_mat3 : mat3 :=
  M3 (V3 NaN NaN NaN) (V3 NaN NaN NaN) (V3 NaN NaN NaN).

Definition zero_vec3 : vec3 := V3 (Fin 0) (Fin 0) (Fin 0).

(** [r_earth_bary_G] of [body2geo], from the vector the frame transform
    returned and what the name [convertPos_to_canonical] is bound to. *)
Definition earth_bary_G (convert : float64 -> float64) (gcrs : vec3) : vec3 :=
  let tmp_rG := vneg gcrs in
  V3 (convert (c0 tmp_rG)) (convert (c1 tmp_rG)) (convert (c2 tmp_rG)).

(** [r_earth_bary_B] of [body2geo], from [mu_star] and the matrix
    [C_B2R]. *)
Definition earth_bary_B (mu_star : float64) (C_B2R : mat3) : vec3 :=
  matvec (transpose C_B2R) (vscale mu_star (V3 (Fin (-1)) (Fin 0) (Fin 0))).

(** The matrix that the last block of [body2geo] builds from the two
    vectors ("find the DCM to rotate vec 1 to vec 2"). *)
Definition align_dcm (r_earth_bary_B r_earth_bary_G : vec3)
  (mu_star : float64) : mat3 :=
  let n_vec := np_cross r_earth_bary_B r_earth_bary_G in
  let n_hat := vdiv n_vec (np_linalg_norm n_vec) in
  let r_sin := fdiv (np_linalg_norm n_vec) (fmul mu_star mu_star) in
  let r_cos :=
    vdot (vdiv r_earth_bary_B mu_star) (vdiv r_earth_bary_G mu_star) in
  let r_skew :=
    M3 (V3 (Fin 0) (fneg (c2 n_hat)) (c1 n_hat))
       (V3 (c2 n_hat) (Fin 0) (fneg (c0 n_hat)))
       (V3 (fneg (c1 n_hat)) (c0 n_hat) (Fin 0)) in
  madd (madd np_identity3 (mscale r_skew r_sin))
       (mscale (matmul r_skew r_skew) (fsub (Fin 1) r_cos)).

(** ** Sample inputs *)

(** An epoch that is the equinox, so that the angle is zero, and an
    ephemeris that puts the barycentre on the x axis: [r_earth_bary_B]
    and [r_earth_bary_G] are then parallel. *)
Definition epoch0 : Time.t := Time.mk (Fin 0) (Fin 0).
Definition equinox0 : TimeArray.t := TimeArray.mk [Fin 0].
Definition barycentre_on_x : vec3 := V3 (Fin (- DU)) (Fin 0) (Fin 0).
Definition kernel_on_x : Kernel := fun _ _ _ => Ok barycentre_on_x.

(** Two equinox sequences with the same first element. *)
Definition equinox_a : TimeArray.t := TimeArray.mk [Fin 0; Fin 1].
Definition equinox_b : TimeArray.t := TimeArray.mk [Fin 0; Fin 5; Fin 9].

(** Three samples, and two angles for them. *)
Definition three_rR : list (list float64) :=
  [[Fin 1; Fin 0; Fin 0]; [Fin 0; Fin 1; Fin 0]; [Fin 0; Fin 0; Fin 1]].
Definition three_v : list (list float64) :=
  [[Fin 0; Fin 1; Fin 0]; [Fin 1; Fin 0; Fin 0]; [Fin 2; Fin 2; Fin 2]].
Definition two_angles : list float64 := [Fin 0; Fin 0].

(** ** Further sample inputs *)

(** An ephemeris that puts the barycentre on the y axis: at [epoch0] the
    two vectors of [body2geo] are then at a right angle. *)
Definition barycentre_on_y : vec3 := V3 (Fin 0) (Fin (- DU)) (Fin 0).
Definition kernel_on_y : Kernel := fun _ _ _ => Ok barycentre_on_y.

(** ** The rotation matrix in binary64

    The matrix of [rot(th, axis)] with the numbers numpy has: binary64,
    with the arithmetic of the kernel's primitive floats.  [np.cos(th)]
    and [np.sin(th)] are functions of the C library; [rot_b64] takes the
    two values they return for the angle. *)

Record vec3_b64 : Type := V3_b64 { b0 : float; b1 : float; b2 : float }.

Record mat3_b64 : Type :=
  M3_b64 { brow0 : vec3_b64; brow1 : vec3_b64; brow2 : vec3_b64 }.

Definition vdot_b64 (u v : vec3_b64) : float :=
  (b0 u * b0 v + b1 u * b1 v + b2 u * b2 v)%float.

Definition col_b64 (j : nat) (m : mat3_b64) : vec3_b64 :=
  let pick (v : vec3_b64) :=
    match j with O => b0 v | S O => b1 v | _ => b2 v end in
  V3_b64 (pick (brow0 m)) (pick (brow1 m)) (pick (brow2 m)).

Definition transpose_b64 (m : mat3_b64) : mat3_b64 :=
  M3_b64 (col_b64 0 m) (col_b64 1 m) (col_b64 2 m).

Definition matmul_b64 (a b : mat3_b64) : mat3_b64 :=
  let r (u : vec3_b64) :=
    V3_b64 (vdot_b64 u (col_b64 0 b)) (vdot_b64 u (col_b64 1 b))
           (vdot_b64 u (col_b64 2 b)) in
  M3_b64 (r (brow0 a)) (r (brow1 a)) (r (brow2 a)).

Definition identity3_b64 : mat3_b64 :=
  M3_b64 (V3_b64 1 0 0) (V3_b64 0 1 0) (V3_b64 0 0 1).

Definition rot_b64 (cos_th sin_th : float) (axis : Z) : result mat3_b64 :=
  if (axis =? 1)%Z then
    Ok (M3_b64 (V3_b64 1 0 0)
               (V3_b64 0 cos_th sin_th)
               (V3_b64 0 (- sin_th) cos_th))
  else if (axis =? 2)%Z then
    Ok (M3_b64 (V3_b64 cos_th 0 (- sin_th))
               (V3_b64 0 1 0)
               (V3_b64 sin_th 0 cos_th))
  else if (axis =? 3)%Z then
    Ok (M3_b64 (V3_b64 cos_th sin_th 0)
               (V3_b64 (- sin_th) cos_th 0)
               (V3_b64 0 0 1))
  else Raise UnboundLocalError.

(** What [np.cos] and [np.sin] return for the angle 1.4000000000000001
    (0x1.6666666666667p+0): 0.16996714290024081 and 0.9854497299884603. *)
Definition cos_14 : float := 0x1.5c17bbc135703p-3.
Definition sin_14 : float := 0x1.f88cddf44e103p-1.

(** * Properties *)

(** ** Real arithmetic and the special values *)

Lemma cos2_sin2 (x : R) : cos x * cos x + sin x * sin x = 1.
Proof. pose proof (sin2_cos2 x) as H. unfold Rsqr in H. lra. Qed.

Lemma Fin_eq (a b : R) : a = b -> Fin a = Fin b.
Proof. intros ->; reflexivity. Qed.

Lemma V3_eq (a b c a' b' c' : float64) :
  a = a' -> b = b' -> c = c' -> V3 a b c = V3 a' b' c'.
Proof. intros -> -> ->; reflexivity. Qed.

Lemma M3_eq (u v w u' v' w' : vec3) :
  u = u' -> v = v' -> w = w' -> M3 u v w = M3 u' v' w'.
Proof. intros -> -> ->; reflexivity. Qed.

(** Reduces an equation between finite 3x3 matrices to its entries. *)
Ltac fin_entries := apply M3_eq; apply V3_eq; apply Fin_eq.

Lemma fadd_nan_r (x : float64) : fadd x NaN = NaN.
Proof. destruct x; reflexivity. Qed.


Lemma fdiv_0_0 : fdiv (Fin 0) (Fin 0) = NaN.
Proof.
  cbn. destruct (Req_dec_T 0 0) as [_ | Hne]; [reflexivity | contradiction].
Qed.

Lemma fsqrt_fin (r : R) : 0 <= r -> fsqrt (Fin r) = Fin (sqrt r).
Proof. intros Hr. cbn. destruct (Rlt_dec r 0); [lra | reflexivity]. Qed.

Lemma norm_zero : np_linalg_norm zero_vec3 = Fin 0.
Proof.
  unfold np_linalg_norm, zero_vec3. cbn [vdot c0 c1 c2 fmul fadd].
  rewrite fsqrt_fin by lra. apply Fin_eq.
  replace (0 * 0 + 0 * 0 + 0 * 0) with 0 by ring. apply sqrt_0.
Qed.




Lemma length3_inv (l : list float64) :
  length l = 3%nat -> exists a b c, l = [a; b; c].
Proof.
  destruct l as [|a [|b [|c [|d l]]]]; try discriminate.
  intros _. exists a, b, c. reflexivity.
Qed.

(** ** Rotation matrices *)

(** C3: for a real angle, the rotation about axis 3 is
    [[cos th, sin th, 0], [-sin th, cos th, 0], [0, 0, 1]].  It is the
    rotation of the coordinate frame about the z axis: it leaves the z
    axis where it is, and the direction at angle [th] from the x axis has
    the coordinates (1, 0, 0) in the rotated frame. *)
Theorem rot_axis3 (th : R) :
  let Rz :=
    M3 (V3 (Fin (cos th)) (Fin (sin th)) (Fin 0))
       (V3 (Fin (- sin th)) (Fin (cos th)) (Fin 0))
       (V3 (Fin 0) (Fin 0) (Fin 1)) in
  rot (Fin th) 3 = Ok Rz /\
  matvec Rz (V3 (Fin 0) (Fin 0) (Fin 1)) = V3 (Fin 0) (Fin 0) (Fin 1) /\
  matvec Rz (V3 (Fin (cos th)) (Fin (sin th)) (Fin 0))
  = V3 (Fin 1) (Fin 0) (Fin 0).
Proof.
  intros Rz. split; [reflexivity|].
  pose proof (cos2_sin2 th) as Hcs.
  split; cbn; apply V3_eq; apply Fin_eq; try ring.
  rewrite <- Hcs. ring.
Qed.

Lemma rot3_returns (th : float64) : exists C : mat3, rot th 3 = Ok C.
Proof. eexists. reflexivity. Qed.


Lemma rot_orthonormal_at (th : R) (m : mat3) (axis : Z) :
  (axis = 1 \/ axis = 2 \/ axis = 3)%Z ->
  rot (Fin th) axis = Ok m ->
  matmul (transpose m) m = np_identity3.
Proof.
  intros [-> | [-> | ->]] [= <-]; cbn;
    pose proof (cos2_sin2 th) as Hcs;
    fin_entries; try ring; ring_simplify; ring_simplify in Hcs; lra.
Qed.

(** The opposite of the opposite of a binary64 number is the number. *)
Lemma opp_b64_involutive (x : float) : (- - x)%float = x.
Proof.
  rewrite <- (SF2Prim_Prim2SF (- - x)%float), !opp_spec.
  rewrite <- (SF2Prim_Prim2SF x) at 2. f_equal.
  destruct (Prim2SF x) as [sg | sg | | sg m e]; cbn;
    rewrite ?Bool.negb_involutive; reflexivity.
Qed.

(** C4, as the code has it: for an axis in 1..3 the transpose of the
    rotation matrix is the rotation by the opposite angle, and this is
    exact, in binary64 too: with the cosine unchanged and the sine
    negated, [rot] lays out the transposed matrix.  The matrix is
    orthonormal when the cosine and the sine of the angle are the exact
    reals; the binary64 values do not give the identity in general. *)
Theorem rot_orthonormal_transpose (th : R) (cos_th sin_th : float)
  (axis : Z) :
  (axis = 1 \/ axis = 2 \/ axis = 3)%Z ->
  (exists m : mat3,
     rot (Fin th) axis = Ok m /\
     matmul (transpose m) m = np_identity3 /\
     rot (fneg (Fin th)) axis = Ok (transpose m)) /\
  (exists m : mat3_b64,
     rot_b64 cos_th sin_th axis = Ok m /\
     rot_b64 cos_th (- sin_th) axis = Ok (transpose_b64 m)).
Proof.
  intros Hax. split.
  - assert (exists m, rot (Fin th) axis = Ok m) as [m Hm].
    { destruct Hax as [-> | [-> | ->]]; eexists; reflexivity. }
    exists m. split; [exact Hm|]. split.
    + eapply rot_orthonormal_at; eassumption.
    + destruct Hax as [-> | [-> | ->]]; injection Hm as <-; cbn;
        f_equal; fin_entries; rewrite ?cos_neg, ?sin_neg; ring.
  - destruct Hax as [-> | [-> | ->]]; eexists; (split; [reflexivity|]);
      cbn; rewrite opp_b64_involutive; reflexivity.
Qed.

Lemma rot_orthonormal_transpose_witness :
  (2 = 1 \/ 2 = 2 \/ 2 = 3)%Z /\
  (exists m : mat3,
     rot (Fin 0) 2 = Ok m /\
     matmul (transpose m) m = np_identity3 /\
     rot (fneg (Fin 0)) 2 = Ok (transpose m)) /\
  (exists m : mat3_b64,
     rot_b64 cos_14 sin_14 2 = Ok m /\
     rot_b64 cos_14 (- sin_14) 2 = Ok (transpose_b64 m)).
Proof.
  assert (2 = 1 \/ 2 = 2 \/ 2 = 3)%Z as Hax by (right; left; reflexivity).
  split; [exact Hax|]. exact (rot_orthonormal_transpose 0 cos_14 sin_14 2 Hax).
Defined.

(** C4: in binary64 the product [R.T @ R] is not the identity.  At the
    angle 1.4000000000000001 and axis 3 its first diagonal entry is
    [cos * cos + sin * sin + 0 * 0] on the values [np.cos] and [np.sin]
    return, which is 1.0000000000000002. *)
Lemma rot_b64_not_orthonormal :
  exists m : mat3_b64,
    rot_b64 cos_14 sin_14 3 = Ok m /\
    b0 (brow0 (matmul_b64 (transpose_b64 m) m)) = 0x1.0000000000001p+0%float /\
    matmul_b64 (transpose_b64 m) m <> identity3_b64.
Proof.
  eexists. split; [reflexivity|]. split; [reflexivity|].
  intros H.
  apply (f_equal (fun a => PrimFloat.eqb (b0 (brow0 a)) 1)) in H.
  vm_compute in H. discriminate.
Qed.

(** ** The position conversions and the two matrices *)

Section PositionProperties.
Context {collab : Collaborators}.

(** C1: the four position conversions were to return a matrix-vector
    product for every length-3 position.  Each calls its matrix function
    with [currentTime] alone, so each raises TypeError for every position
    and every epoch. *)
Theorem position_conversions_raise (pos : ndarray) (currentTime : Time.t) :
  gcrs2inert pos currentTime = Raise TypeError /\
  inert2gcrs pos currentTime = Raise TypeError /\
  inert2rotP pos currentTime = Raise TypeError /\
  rot2inertP pos currentTime = Raise TypeError.
Proof. repeat split; reflexivity. Qed.

(** C6: the round trip through the rotating frame was to give the vector
    back.  Neither conversion returns: the composition raises TypeError
    for every vector and epoch. *)
Theorem position_roundtrip_raises (v : ndarray) (currentTime : Time.t) :
  (let* r := inert2rotP v currentTime in rot2inertP r currentTime)
  = Raise TypeError.
Proof. reflexivity. Qed.

(** The matrix of [body2rot] would give the round trip: with the equinox
    supplied, the name [convertTime_to_canonical] bound and a finite
    angle, [C.T @ (C @ v) = v] for a finite [v], over the reals. *)
Lemma body2rot_roundtrip (currentTime : Time.t) (equinox : TimeArray.t)
  (th x y z : R) (e0 : float64) (convert : float64 -> float64) :
  first_epoch equinox = Ok e0 ->
  convertTime_to_canonical = Some convert ->
  convert (fsub (Time.value currentTime) e0) = Fin th ->
  exists C : mat3,
    body2rot currentTime equinox = Ok C /\
    matvec (transpose C) (matvec C (V3 (Fin x) (Fin y) (Fin z)))
    = V3 (Fin x) (Fin y) (Fin z).
Proof.
  intros He Hc Hth. unfold body2rot. rewrite He, Hc. cbn [bind global_name].
  rewrite Hth.
  eexists. split; [reflexivity|].
  cbn. pose proof (cos2_sin2 th) as Hcs.
  apply V3_eq; apply Fin_eq.
  - transitivity (x * (cos th * cos th + sin th * sin th));
      [ring | rewrite Hcs; ring].
  - transitivity (y * (cos th * cos th + sin th * sin th));
      [ring | rewrite Hcs; ring].
  - ring.
Qed.

(** C9: [body2rot] and [body2geo] read the equinox through its first
    element only: two equinox sequences with the same first element give
    the same matrices, for the same epoch and kernel. *)
Theorem equinox_first_element_only (currentTime : Time.t) (kernel : Kernel)
  (equinox equinox' : TimeArray.t) :
  TimeArray.value equinox !! 0%nat = TimeArray.value equinox' !! 0%nat ->
  body2rot currentTime equinox = body2rot currentTime equinox' /\
  body2geo currentTime kernel equinox = body2geo currentTime kernel equinox'.
Proof.
  intros Hhd.
  assert (first_epoch equinox = first_epoch equinox') as He.
  { unfold first_epoch. rewrite Hhd. reflexivity. }
  unfold body2rot, body2geo. rewrite He. split; reflexivity.
Qed.

(** [body2geo] is three steps after the calls to the collaborators and
    the lookups of the two names. *)
Lemma body2geo_steps (currentTime : Time.t) (kernel : Kernel)
  (equinox : TimeArray.t) :
  body2geo currentTime kernel equinox =
  let* tmp := kernel 0%Z 3%Z (Time.jd currentTime) in
  let* gcrs := icrs2gcrs tmp currentTime in
  let* convert := global_name convertPos_to_canonical in
  let r_G := earth_bary_G convert gcrs in
  let mu_star := np_linalg_norm r_G in
  let* e0 := first_epoch equinox in
  let* convert_t := global_name convertTime_to_canonical in
  let* C_B2R := rot (convert_t (fsub (Time.value currentTime) e0)) 3 in
  Ok (align_dcm (earth_bary_B mu_star C_B2R) r_G mu_star).
Proof.
  unfold body2geo.
  destruct (kernel 0%Z 3%Z (Time.jd currentTime)) as [tmp|e]; [|reflexivity].
  cbn [bind].
  destruct (icrs2gcrs tmp currentTime) as [gcrs|e]; [|reflexivity].
  cbn [bind].
  destruct convertPos_to_canonical as [convert|]; reflexivity.
Qed.

End PositionProperties.

Lemma equinox_first_element_only_witness :
  TimeArray.value equinox_a !! 0%nat = TimeArray.value equinox_b !! 0%nat /\
  body2rot (collab := spec_collaborators) epoch0 equinox_a
  = body2rot (collab := spec_collaborators) epoch0 equinox_b /\
  body2geo (collab := spec_collaborators) epoch0 kernel_on_x equinox_a
  = body2geo (collab := spec_collaborators) epoch0 kernel_on_x equinox_b.
Proof.
  split; [reflexivity|].
  apply (equinox_first_element_only (collab := spec_collaborators)
           epoch0 kernel_on_x equinox_a equinox_b).
  reflexivity.
Defined.

(** ** The degenerate alignment *)

(** With a zero cross product the alignment step divides 0 by 0: every
    entry of the matrix is NaN, whatever the two vectors are. *)
Lemma align_dcm_zero_cross (r_B r_G : vec3) (mu_star : float64) :
  np_cross r_B r_G = zero_vec3 -> align_dcm r_B r_G mu_star = nan_mat3.
Proof.
  intros Hcross. unfold align_dcm. cbv zeta. rewrite Hcross, norm_zero.
  unfold vdiv, zero_vec3. cbn [vmap c0 c1 c2]. rewrite fdiv_0_0.
  cbn [fneg matmul mscale mmap vmap row0 row1 row2 c0 c1 c2 col vdot
       fmul fadd madd vadd vzip np_identity3].
  apply M3_eq; apply V3_eq; apply fadd_nan_r.
Qed.










(** ** The row-by-row loops *)

Section Loops.
Context {A : Type}.
Implicit Types (row : nat -> result A) (s pre mid suf rows : list A).

Lemma assign_loop_ok row m : forall k pre mid suf rows,
  length pre = k -> length mid = m -> length rows = m ->
  (forall i r, rows !! i = Some r -> row (k + i)%nat = Ok r) ->
  assign_loop row (seq k m) (pre ++ mid ++ suf) = Ok (pre ++ rows ++ suf).
Proof.
  induction m as [|m IH]; intros k pre mid suf rows Hpre Hmid Hrows Hrow.
  - destruct mid; [|discriminate]. destruct rows; [|discriminate].
    reflexivity.
  - destruct mid as [|z mid]; [discriminate|].
    destruct rows as [|r rows]; [discriminate|].
    cbn [seq assign_loop for_range].
    pose proof (Hrow 0%nat r eq_refl) as H0.
    rewrite Nat.add_0_r in H0. rewrite H0. cbn [bind].
    replace (<[k:=r]> (pre ++ (z :: mid) ++ suf))
      with ((pre ++ [r]) ++ mid ++ suf).
    2:{ rewrite <- Hpre. cbn [app].
        rewrite (insert_app_r_alt pre (z :: mid ++ suf) (length pre) r)
          by lia.
        rewrite Nat.sub_diag. cbn. rewrite <- app_assoc. reflexivity. }
    fold (assign_loop row (seq (S k) m) ((pre ++ [r]) ++ mid ++ suf)).
    rewrite (IH (S k) (pre ++ [r]) mid suf rows).
    + rewrite <- app_assoc. reflexivity.
    + rewrite length_app. cbn. lia.
    + cbn in Hmid. lia.
    + cbn in Hrows. lia.
    + intros i r' Hi. replace (S k + i)%nat with (k + S i)%nat by lia.
      apply Hrow. exact Hi.
Qed.

(** The loop stops at the first row that raises. *)
Lemma assign_loop_raise row (e : exn) m : forall k j s,
  (j < m)%nat ->
  (forall i, (i < j)%nat -> exists r, row (k + i)%nat = Ok r) ->
  row (k + j)%nat = Raise e ->
  assign_loop row (seq k m) s = Raise e.
Proof.
  induction m as [|m IH]; intros k j s Hj Hbefore Hat; [lia|].
  cbn [seq assign_loop for_range].
  destruct j as [|j].
  - rewrite Nat.add_0_r in Hat. rewrite Hat. reflexivity.
  - destruct (Hbefore 0%nat ltac:(lia)) as [r Hr].
    rewrite Nat.add_0_r in Hr. rewrite Hr. cbn [bind].
    fold (assign_loop row (seq (S k) m) (<[k:=r]> s)).
    apply (IH (S k) j).
    + lia.
    + intros i Hi. replace (S k + i)%nat with (k + S i)%nat by lia.
      apply Hbefore. lia.
    + replace (S k + j)%nat with (k + S j)%nat by lia. exact Hat.
Qed.

(** From zeros to the rows, when every row is computed. *)
Lemma assign_loop_fill row n (z : A) rows :
  length rows = n ->
  (forall i r, rows !! i = Some r -> row i = Ok r) ->
  assign_loop row (seq 0 n) (replicate n z) = Ok rows.
Proof.
  intros Hlen Hrow.
  pose proof (assign_loop_ok row n 0%nat [] (replicate n z) [] rows) as L.
  rewrite !app_nil_r in L. cbn [app] in L. apply L; auto.
  apply length_replicate.
Qed.

End Loops.

(** ** The velocity conversions *)

(** C5: for a single position [rR = (x, y, z)], a single velocity [vR]
    and an angle, [rot2inertV] returns [R.T @ vR + R.T @ (-y, x, 0)] with
    [R = rot(t_norm, 3)]. *)
Theorem rot2inertV_single (x y z a b c t_norm : float64) :
  exists R : mat3,
    rot t_norm 3 = Ok R /\
    rot2inertV (A1 [x; y; z]) (A1 [a; b; c]) t_norm =
    Ok (A1 (list_of_vec3
              (vadd (matvec (transpose R) (V3 a b c))
                    (matvec (transpose R) (V3 (fneg y) x (Fin 0)))))).
Proof. eexists. split; reflexivity. Qed.

(** C10: with a zero-dimensional [t_norm], [inert2rotV] returns one row,
    computed from the first rows of [rR] and [vI]; the further rows [rs]
    and [vs], however many, are not read and raise nothing. *)
Theorem inert2rotV_scalar_t_norm (th x y z a b c : float64)
  (rs vs : list (list float64)) :
  exists R : mat3,
    rot th 3 = Ok R /\
    inert2rotV (A2 3 ([x; y; z] :: rs)) (A2 3 ([a; b; c] :: vs)) (A0 th) =
    Ok (A2 3 [list_of_vec3
                (vadd (matvec R (V3 a b c)) (V3 y (fneg x) (Fin 0)))]).
Proof. eexists. split; reflexivity. Qed.

Lemma rot2inertV_row_single (rs vs : list (list float64)) (t : nat)
  (r v : list float64) (t_norm : float64) :
  rs !! t = Some r -> vs !! t = Some v ->
  length r = 3%nat -> length v = 3%nat ->
  rot2inertV (A1 r) (A1 v) t_norm = Ok (A1 (single_row t_norm (r, v))) /\
  rot2inertV_row (A2 3 rs) (A2 3 vs) t_norm t
  = Ok (single_row t_norm (r, v)).
Proof.
  intros Hr Hv [x [y [z ->]]]%length3_inv [a [b [c ->]]]%length3_inv.
  unfold rot2inertV_row, item2, rowslice. rewrite Hr, Hv.
  split; reflexivity.
Qed.

(** C8: on a batch of N sample pairs (two N x 3 arrays) [rot2inertV]
    returns the N rows that it returns on the pairs one at a time, in
    order. *)
Theorem rot2inertV_batch (rs vs : list (list float64)) (t_norm : float64) :
  wf_ndarray (A2 3 rs) ->
  wf_ndarray (A2 3 vs) ->
  length rs = length vs ->
  exists rows : list (list float64),
    rot2inertV (A2 3 rs) (A2 3 vs) t_norm = Ok (A2 3 rows) /\
    Forall2
      (fun rv row => rot2inertV (A1 rv.1) (A1 rv.2) t_norm = Ok (A1 row))
      (zip rs vs) rows.
Proof.
  cbn [wf_ndarray]. intros Hrs Hvs Hlen.
  exists (single_row t_norm <$> zip rs vs). split.
  - unfold rot2inertV. cbn [shape0 bind ndim Nat.eqb].
    rewrite andb_false_r. cbn [np_len bind].
    change (for_range _ (seq 0 (length rs)) (np_zeros3 (length rs)))
      with (assign_loop (rot2inertV_row (A2 3 rs) (A2 3 vs) t_norm)
              (seq 0 (length rs))
              (replicate (length rs) [Fin 0; Fin 0; Fin 0])).
    rewrite (assign_loop_fill (rot2inertV_row (A2 3 rs) (A2 3 vs) t_norm)
               (length rs) [Fin 0; Fin 0; Fin 0]
               (single_row t_norm <$> zip rs vs)); [reflexivity| |].
    + rewrite length_fmap, length_zip. lia.
    + intros i row Hi.
      apply list_lookup_fmap_Some in Hi as [[r v] [-> Hi]].
      apply lookup_zip_with_Some in Hi as (r' & v' & [= -> ->] & Hr & Hv).
      eapply rot2inertV_row_single; eauto.
      * eapply Forall_lookup_1 in Hrs; eauto.
      * eapply Forall_lookup_1 in Hvs; eauto.
  - apply Forall2_fmap_r, Forall_Forall2_diag, Forall_lookup.
    intros i [r v] Hi.
    apply lookup_zip_with_Some in Hi as (r' & v' & [= -> ->] & Hr & Hv).
    cbn [fst snd].
    eapply (rot2inertV_row_single rs vs i); eauto.
    + eapply Forall_lookup_1 in Hrs; eauto.
    + eapply Forall_lookup_1 in Hvs; eauto.
Qed.

Lemma rot2inertV_batch_witness :
  wf_ndarray (A2 3 three_rR) /\
  wf_ndarray (A2 3 three_v) /\
  length three_rR = length three_v /\
  exists rows : list (list float64),
    rot2inertV (A2 3 three_rR) (A2 3 three_v) (Fin 0) = Ok (A2 3 rows) /\
    Forall2
      (fun rv row => rot2inertV (A1 rv.1) (A1 rv.2) (Fin 0) = Ok (A1 row))
      (zip three_rR three_v) rows.
Proof.
  assert (wf_ndarray (A2 3 three_rR)) as Hr by (repeat constructor).
  assert (wf_ndarray (A2 3 three_v)) as Hv by (repeat constructor).
  repeat split; [exact Hr | exact Hv |].
  apply (rot2inertV_batch three_rR three_v (Fin 0) Hr Hv). reflexivity.
Defined.

(** ** [inert2rotV] and the lengths of its arguments *)

Lemma inert2rotV_thetas_seq (ths : list float64) :
  length ths <> 1%nat -> inert2rotV_thetas (A1 ths) = Ok (A0 <$> ths).
Proof.
  intros Hn. unfold inert2rotV_thetas. cbn [size].
  destruct (Nat.eqb_spec (length ths) 1); [contradiction | reflexivity].
Qed.

(** A row of [inert2rotV] reads row [t] of the two batches and nothing
    else of them. *)
Lemma inert2rotV_row_local (c c' d d' : nat)
  (rs rs' vs vs' : list (list float64)) (thetas : list ndarray) (t : nat) :
  rs !! t = rs' !! t -> vs !! t = vs' !! t ->
  inert2rotV_row (A2 c rs) (A2 d vs) thetas t
  = inert2rotV_row (A2 c' rs') (A2 d' vs') thetas t.
Proof.
  intros Hr Hv. unfold inert2rotV_row, rowslice, item2.
  rewrite Hr, Hv. reflexivity.
Qed.

Lemma inert2rotV_row_ok (rs vs : list (list float64)) (ths : list float64)
  (t : nat) :
  Forall (fun r => length r = 3%nat) rs ->
  Forall (fun v => length v = 3%nat) vs ->
  (t < length ths)%nat -> (t < length rs)%nat -> (t < length vs)%nat ->
  exists row : list float64,
    inert2rotV_row (A2 3 rs) (A2 3 vs) (A0 <$> ths) t = Ok row.
Proof.
  intros Hrs Hvs Ht Hr Hv.
  destruct (lookup_lt_is_Some_2 ths t Ht) as [th Hth].
  destruct (lookup_lt_is_Some_2 rs t Hr) as [r Hrt].
  destruct (lookup_lt_is_Some_2 vs t Hv) as [v Hvt].
  destruct (length3_inv r) as (x & y & z & ->);
    [eapply Forall_lookup_1 in Hrs; eauto|].
  destruct (length3_inv v) as (a & b & c & ->);
    [eapply Forall_lookup_1 in Hvs; eauto|].
  unfold inert2rotV_row, rowslice, item2.
  rewrite list_lookup_fmap, Hth, Hrt, Hvt. eexists. reflexivity.
Qed.

(** Past the end of either batch the row access raises. *)
Lemma inert2rotV_row_past_end (rs vs : list (list float64))
  (ths : list float64) (t : nat) :
  Forall (fun v => length v = 3%nat) vs ->
  (t < length ths)%nat -> (length rs <= t)%nat \/ (length vs <= t)%nat ->
  inert2rotV_row (A2 3 rs) (A2 3 vs) (A0 <$> ths) t = Raise IndexError.
Proof.
  intros Hvs Ht Hend.
  destruct (lookup_lt_is_Some_2 ths t Ht) as [th Hth].
  unfold inert2rotV_row, rowslice, item2.
  rewrite list_lookup_fmap, Hth.
  cbn [fmap option_fmap option_map as_scalar bind].
  destruct (rot3_returns th) as [C ->]. cbn [bind].
  destruct (vs !! t) as [v|] eqn:Hvt; [|reflexivity].
  destruct (length3_inv v) as (a & b & c & ->);
    [eapply Forall_lookup_1 in Hvs; eauto|].
  cbn [vec3_of_list bind].
  destruct Hend as [Hr | Hv].
  - rewrite (lookup_ge_None_2 rs t Hr). reflexivity.
  - apply lookup_lt_Some in Hvt. lia.
Qed.

(** C7, as the code has it: [inert2rotV] compares no lengths.  For a
    sequence of angles (not of length one) and two batches of 3-vectors:
    when both batches have at least as many rows as there are angles, it
    returns one row per angle, and the same rows as on the batches cut to
    that length; when a batch has fewer rows, it raises IndexError. *)
Theorem inert2rotV_lengths (ths : list float64) (rs vs : list (list float64)) :
  length ths <> 1%nat ->
  wf_ndarray (A2 3 rs) ->
  wf_ndarray (A2 3 vs) ->
  ((length ths <= length rs)%nat -> (length ths <= length vs)%nat ->
   exists rows : list (list float64),
     inert2rotV (A2 3 rs) (A2 3 vs) (A1 ths) = Ok (A2 3 rows) /\
     length rows = length ths /\
     inert2rotV (A2 3 (take (length ths) rs)) (A2 3 (take (length ths) vs))
       (A1 ths) = Ok (A2 3 rows)) /\
  ((length rs < length ths)%nat \/ (length vs < length ths)%nat ->
   inert2rotV (A2 3 rs) (A2 3 vs) (A1 ths) = Raise IndexError).
Proof.
  cbn [wf_ndarray]. intros Hn Hrs Hvs.
  unfold inert2rotV. rewrite (inert2rotV_thetas_seq ths Hn). cbn [bind].
  rewrite length_fmap.
  set (row := inert2rotV_row (A2 3 rs) (A2 3 vs) (A0 <$> ths)).
  split.
  - intros Hlr Hlv.
    set (rows := (fun t => row_of (row t)) <$> seq 0 (length ths)).
    assert (length rows = length ths) as Hlen.
    { unfold rows. rewrite length_fmap, length_seq. reflexivity. }
    assert (forall i r, rows !! i = Some r -> row i = Ok r) as Hrow.
    { intros i r Hi. unfold rows in Hi.
      apply list_lookup_fmap_Some in Hi as (t & -> & Ht).
      apply lookup_seq in Ht as [-> Hlt]. cbn [Nat.add].
      destruct (inert2rotV_row_ok rs vs ths i Hrs Hvs) as [r Hr]; try lia.
      unfold row. rewrite Hr. reflexivity. }
    exists rows. split; [|split; [exact Hlen|]].
    + change (for_range _ (seq 0 (length ths)) (np_zeros3 (length ths)))
        with (assign_loop row (seq 0 (length ths))
                (replicate (length ths) [Fin 0; Fin 0; Fin 0])).
      rewrite (assign_loop_fill row (length ths) _ rows Hlen Hrow).
      reflexivity.
    + set (row' := inert2rotV_row (A2 3 (take (length ths) rs))
                     (A2 3 (take (length ths) vs)) (A0 <$> ths)).
      change (for_range _ (seq 0 (length ths)) (np_zeros3 (length ths)))
        with (assign_loop row' (seq 0 (length ths))
                (replicate (length ths) [Fin 0; Fin 0; Fin 0])).
      rewrite (assign_loop_fill row' (length ths) _ rows Hlen);
        [reflexivity|].
      intros i r Hi. rewrite <- (Hrow i r Hi).
      apply lookup_lt_Some in Hi. rewrite Hlen in Hi.
      unfold row', row. apply inert2rotV_row_local;
        apply lookup_take_lt; exact Hi.
  - intros Hshort.
    change (for_range _ (seq 0 (length ths)) (np_zeros3 (length ths)))
      with (assign_loop row (seq 0 (length ths))
                (replicate (length ths) [Fin 0; Fin 0; Fin 0])).
    rewrite (assign_loop_raise row IndexError (length ths) 0
               (min (length rs) (length vs))); [reflexivity| | |].
    + lia.
    + intros i Hi. cbn [Nat.add].
      apply inert2rotV_row_ok; auto; lia.
    + cbn [Nat.add]. apply inert2rotV_row_past_end; auto; lia.
Qed.

(** C7: a call with two angles and batches of three rows does not fail;
    it returns two rows. *)
Lemma inert2rotV_silent_truncation :
  length two_angles = 2%nat /\ length three_rR = 3%nat /\
  length three_v = 3%nat /\
  exists rows : list (list float64),
    inert2rotV (A2 3 three_rR) (A2 3 three_v) (A1 two_angles)
    = Ok (A2 3 rows) /\ length rows = 2%nat.
Proof. repeat split. eexists. split; reflexivity. Qed.

Lemma inert2rotV_lengths_witness :
  length two_angles <> 1%nat /\
  wf_ndarray (A2 3 three_rR) /\
  wf_ndarray (A2 3 three_v) /\
  ((length two_angles <= length three_rR)%nat ->
   (length two_angles <= length three_v)%nat ->
   exists rows : list (list float64),
     inert2rotV (A2 3 three_rR) (A2 3 three_v) (A1 two_angles)
     = Ok (A2 3 rows) /\
     length rows = length two_angles /\
     inert2rotV (A2 3 (take (length two_angles) three_rR))
       (A2 3 (take (length two_angles) three_v)) (A1 two_angles)
     = Ok (A2 3 rows)) /\
  ((length three_rR < length two_angles)%nat \/
   (length three_v < length two_angles)%nat ->
   inert2rotV (A2 3 three_rR) (A2 3 three_v) (A1 two_angles)
   = Raise IndexError).
Proof.
  assert (length two_angles <> 1%nat) as Hn by (cbn; lia).
  assert (wf_ndarray (A2 3 three_rR)) as Hr by (repeat constructor).
  assert (wf_ndarray (A2 3 three_v)) as Hv by (repeat constructor).
  split; [exact Hn|]. split; [exact Hr|]. split; [exact Hv|].
  exact (inert2rotV_lengths two_angles three_rR three_v Hn Hr Hv).
Defined.

(** * Further properties *)

(** ** More on the rotation matrices *)

(** X1: an axis other than 1, 2 and 3 is not rejected by a test: no
    branch assigns the matrix and the return raises UnboundLocalError,
    whatever the angle. *)
Theorem rot_other_axis (th : float64) (axis : Z) :
  axis <> 1%Z -> axis <> 2%Z -> axis <> 3%Z ->
  rot th axis = Raise UnboundLocalError.
Proof.
  intros H1 H2 H3. unfold rot.
  destruct (Z.eqb_spec axis 1); [contradiction|].
  destruct (Z.eqb_spec axis 2); [contradiction|].
  destruct (Z.eqb_spec axis 3); [contradiction|].
  reflexivity.
Qed.

Lemma rot_other_axis_witness :
  (0 <> 1 /\ 0 <> 2 /\ 0 <> 3)%Z /\ rot (Fin PI) 0 = Raise UnboundLocalError.
Proof.
  assert (0 <> 1)%Z as H1 by lia. assert (0 <> 2)%Z as H2 by lia.
  assert (0 <> 3)%Z as H3 by lia.
  split; [auto|]. exact (rot_other_axis (Fin PI) 0 H1 H2 H3).
Defined.

(** ** More on the velocity conversions *)

Lemma row3_eq (a b c a' b' c' : R) :
  a = a' -> b = b' -> c = c' ->
  [Fin a; Fin b; Fin c] = [Fin a'; Fin b'; Fin c'].
Proof. intros -> -> ->; reflexivity. Qed.

(** X7: a point at rest in the rotating frame is carried around the z
    axis: for a finite position and a zero velocity [rot2inertV] returns
    the transport term alone, [R.T @ (-y, x, 0)] with [R = rot(th, 3)].
    The term [R.T @ vR] adds nothing: its entries are sums of products
    with zero. *)
Theorem rot2inertV_at_rest (x y z th : R) :
  exists C : mat3,
    rot (Fin th) 3 = Ok C /\
    rot2inertV (A1 [Fin x; Fin y; Fin z]) (A1 [Fin 0; Fin 0; Fin 0]) (Fin th)
    = Ok (A1 (list_of_vec3
                (matvec (transpose C) (V3 (Fin (- y)) (Fin x) (Fin 0))))).
Proof.
  eexists. split; [reflexivity|].
  cbn. apply (f_equal (fun r => Ok (A1 r))). apply row3_eq; ring.
Qed.

(** ** More on the two matrices *)

Section MatrixProperties.
Context {collab : Collaborators}.

(** X8: in the module loaded as it is, [body2geo] returns no matrix.  An
    error of the kernel lookup comes out unchanged, then one of the frame
    transform; when both return, the call raises NameError at the first
    use of [convertPos_to_canonical].  The equinox is not read before
    that: an empty one makes no difference. *)
Theorem body2geo_never_returns (currentTime : Time.t) (kernel : Kernel)
  (equinox : TimeArray.t) :
  convertPos_to_canonical = None ->
  (forall C, body2geo currentTime kernel equinox <> Ok C) /\
  (forall e, kernel 0%Z 3%Z (Time.jd currentTime) = Raise e ->
             body2geo currentTime kernel equinox = Raise e) /\
  (forall tmp e, kernel 0%Z 3%Z (Time.jd currentTime) = Ok tmp ->
                 icrs2gcrs tmp currentTime = Raise e ->
                 body2geo currentTime kernel equinox = Raise e) /\
  (forall tmp gcrs, kernel 0%Z 3%Z (Time.jd currentTime) = Ok tmp ->
                    icrs2gcrs tmp currentTime = Ok gcrs ->
                    body2geo currentTime kernel equinox = Raise NameError /\
                    body2geo currentTime kernel (TimeArray.mk [])
                    = Raise NameError).
Proof.
  intros Hname. unfold body2geo. rewrite Hname.
  split; [|split; [|split]].
  - intros C.
    destruct (kernel 0%Z 3%Z (Time.jd currentTime)) as [tmp|e];
      [|discriminate].
    cbn [bind].
    destruct (icrs2gcrs tmp currentTime) as [gcrs|e]; discriminate.
  - intros e Hk. rewrite Hk. reflexivity.
  - intros tmp e Hk Hg. rewrite Hk. cbn [bind]. rewrite Hg. reflexivity.
  - intros tmp gcrs Hk Hg. rewrite Hk. cbn [bind]. rewrite Hg.
    split; reflexivity.
Qed.

(** X9: in the module loaded as it is, [body2rot] returns no matrix
    either.  It reads the first element of the equinox first: an empty
    equinox raises IndexError, and any other raises NameError at the use
    of [convertTime_to_canonical], for every epoch. *)
Theorem body2rot_never_returns (currentTime : Time.t)
  (equinox : TimeArray.t) :
  convertTime_to_canonical = None ->
  (forall C, body2rot currentTime equinox <> Ok C) /\
  (TimeArray.value equinox = [] ->
   body2rot currentTime equinox = Raise IndexError) /\
  (TimeArray.value equinox <> [] ->
   body2rot currentTime equinox = Raise NameError).
Proof.
  intros Hname. unfold body2rot, first_epoch. rewrite Hname.
  destruct (TimeArray.value equinox) as [|e0 rest];
    cbn [lookup list_lookup bind global_name].
  - split; [discriminate|]. split; [reflexivity|]. intros H. contradiction.
  - split; [discriminate|]. split; [discriminate|]. reflexivity.
Qed.

End MatrixProperties.

Lemma body2geo_never_returns_witness :
  convertPos_to_canonical (Collaborators := module_as_loaded barycentre_on_y)
  = None /\
  (forall C,
     body2geo (collab := module_as_loaded barycentre_on_y)
       epoch0 kernel_on_y equinox0 <> Ok C) /\
  (forall e, kernel_on_y 0%Z 3%Z (Time.jd epoch0) = Raise e ->
     body2geo (collab := module_as_loaded barycentre_on_y)
       epoch0 kernel_on_y equinox0 = Raise e) /\
  (forall tmp e, kernel_on_y 0%Z 3%Z (Time.jd epoch0) = Ok tmp ->
     icrs2gcrs (collab := module_as_loaded barycentre_on_y) tmp epoch0
     = Raise e ->
     body2geo (collab := module_as_loaded barycentre_on_y)
       epoch0 kernel_on_y equinox0 = Raise e) /\
  (forall tmp gcrs, kernel_on_y 0%Z 3%Z (Time.jd epoch0) = Ok tmp ->
     icrs2gcrs (collab := module_as_loaded barycentre_on_y) tmp epoch0
     = Ok gcrs ->
     body2geo (collab := module_as_loaded barycentre_on_y)
       epoch0 kernel_on_y equinox0 = Raise NameError /\
     body2geo (collab := module_as_loaded barycentre_on_y)
       epoch0 kernel_on_y (TimeArray.mk []) = Raise NameError).
Proof.
  split; [reflexivity|].
  apply (body2geo_never_returns (collab := module_as_loaded barycentre_on_y)
           epoch0 kernel_on_y equinox0).
  reflexivity.
Defined.

Lemma body2rot_never_returns_witness :
  convertTime_to_canonical (Collaborators := module_as_loaded barycentre_on_y)
  = None /\
  (forall C,
     body2rot (collab := module_as_loaded barycentre_on_y) epoch0 equinox0
     <> Ok C) /\
  (TimeArray.value equinox0 = [] ->
   body2rot (collab := module_as_loaded barycentre_on_y) epoch0 equinox0
   = Raise IndexError) /\
  (TimeArray.value equinox0 <> [] ->
   body2rot (collab := module_as_loaded barycentre_on_y) epoch0 equinox0
   = Raise NameError).
Proof.
  split; [reflexivity|].
  apply (body2rot_never_returns (collab := module_as_loaded barycentre_on_y)
           epoch0 equinox0).
  reflexivity.
Defined.

(** ** Shapes, lengths and the loops *)

Section LoopInvariants.
Context {A : Type}.
Implicit Types (row : nat -> result A) (s : list A).

Lemma assign_loop_length row ts : forall s s',
  assign_loop row ts s = Ok s' -> length s' = length s.
Proof.
  induction ts as [|t ts IH]; intros s s' Hs; cbn in Hs.
  - injection Hs as <-. reflexivity.
  - destruct (row t) as [r|e]; [|discriminate]. cbn [bind] in Hs.
    apply IH in Hs. rewrite Hs. apply length_insert.
Qed.

Lemma assign_loop_Forall (P : A -> Prop) row ts : forall s s',
  (forall t r, row t = Ok r -> P r) ->
  Forall P s -> assign_loop row ts s = Ok s' -> Forall P s'.
Proof.
  induction ts as [|t ts IH]; intros s s' Hrow HP Hs; cbn in Hs.
  - injection Hs as <-. exact HP.
  - destruct (row t) as [r|e] eqn:Hr; [|discriminate]. cbn [bind] in Hs.
    eapply IH; [exact Hrow | | exact Hs].
    apply Forall_insert; [exact HP | eapply Hrow; exact Hr].
Qed.

End LoopInvariants.

Lemma zeros3_wf (n : nat) :
  Forall (fun r : list float64 => length r = 3%nat) (np_zeros3 n).
Proof. apply Forall_replicate. reflexivity. Qed.

Lemma rot2inertV_row_length (rR vR : ndarray) (t_norm : float64) (t : nat)
  (r : list float64) :
  rot2inertV_row rR vR t_norm t = Ok r -> length r = 3%nat.
Proof.
  unfold rot2inertV_row. intros Hr.
  destruct (rot t_norm 3); [|discriminate]. cbn [bind] in Hr.
  destruct (item2 rR t 1); [|discriminate]. cbn [bind] in Hr.
  destruct (item2 rR t 0); [|discriminate]. cbn [bind] in Hr.
  destruct (rowslice vR t); [|discriminate]. cbn [bind] in Hr.
  destruct (vec3_of_list _); [|discriminate]. cbn [bind] in Hr.
  injection Hr as <-. reflexivity.
Qed.

Lemma inert2rotV_row_length (rR vI : ndarray) (thetas : list ndarray)
  (t : nat) (r : list float64) :
  inert2rotV_row rR vI thetas t = Ok r -> length r = 3%nat.
Proof.
  unfold inert2rotV_row. intros Hr.
  destruct (match thetas !! t with Some a => as_scalar a
            | None => Raise IndexError end) as [th|]; [|discriminate].
  cbn [bind] in Hr.
  destruct (rot th 3); [|discriminate]. cbn [bind] in Hr.
  destruct (rowslice vI t); [|discriminate]. cbn [bind] in Hr.
  destruct (vec3_of_list _); [|discriminate]. cbn [bind] in Hr.
  destruct (item2 rR t 1); [|discriminate]. cbn [bind] in Hr.
  destruct (item2 rR t 0); [|discriminate]. cbn [bind] in Hr.
  injection Hr as <-. reflexivity.
Qed.

(** X11: whenever [rot2inertV] returns on a two-dimensional [rR], the
    result is a well-formed array of [len(rR)] rows and 3 columns,
    whatever [vR] and the number of columns of [rR] are. *)
Theorem rot2inertV_batch_shape (ncols : nat) (rs : list (list float64))
  (vR : ndarray) (t_norm : float64) (a : ndarray) :
  rot2inertV (A2 ncols rs) vR t_norm = Ok a ->
  exists rows : list (list float64),
    a = A2 3 rows /\ length rows = length rs /\ wf_ndarray a.
Proof.
  unfold rot2inertV. cbn [shape0 bind ndim Nat.eqb].
  rewrite andb_false_r. cbn [np_len bind].
  change (for_range _ (seq 0 (length rs)) (np_zeros3 (length rs)))
    with (assign_loop (rot2inertV_row (A2 ncols rs) vR t_norm)
            (seq 0 (length rs)) (np_zeros3 (length rs))).
  destruct (assign_loop _ _ _) as [rows|e] eqn:Hloop; [|discriminate].
  cbn [bind]. intros [= <-]. exists rows. split; [reflexivity|]. split.
  - apply assign_loop_length in Hloop. rewrite Hloop.
    apply length_replicate.
  - cbn [wf_ndarray].
    eapply assign_loop_Forall; [|apply zeros3_wf|exact Hloop].
    intros t r. apply rot2inertV_row_length.
Qed.

Lemma rot2inertV_batch_shape_witness :
  exists (a : ndarray) (rows : list (list float64)),
    rot2inertV (A2 3 three_rR) (A2 3 three_v) (Fin 0) = Ok a /\
    a = A2 3 rows /\ length rows = length three_rR /\ wf_ndarray a.
Proof.
  assert (exists a, rot2inertV (A2 3 three_rR) (A2 3 three_v) (Fin 0) = Ok a)
    as [a Ha] by (eexists; reflexivity).
  destruct (rot2inertV_batch_shape 3 three_rR (A2 3 three_v) (Fin 0) a Ha)
    as [rows Hrows].
  exists a, rows. split; [exact Ha | exact Hrows].
Defined.

(** The number of angles [inert2rotV] loops over. *)
Lemma inert2rotV_thetas_length (t_norm : ndarray) (thetas : list ndarray) :
  inert2rotV_thetas t_norm = Ok thetas ->
  length thetas =
  match t_norm with
  | A0 _ => 1%nat
  | A1 v => length v
  | A2 _ rows => length rows
  end.
Proof.
  unfold inert2rotV_thetas.
  destruct (Nat.eqb_spec (size t_norm) 1) as [Hs|Hs].
  - intros [= <-]. destruct t_norm as [x|v|c rows]; cbn [size length] in *.
    + reflexivity.
    + congruence.
    + apply Nat.eq_mul_1 in Hs as [Hr _]. congruence.
  - destruct t_norm as [x|v|c rows]; cbn; intros [= <-];
      rewrite length_map; reflexivity.
Qed.

(** X12: whenever [inert2rotV] returns, the result is a well-formed
    array of 3 columns with one row per angle: one row for a
    zero-dimensional [t_norm], [len(t_norm)] rows otherwise, whatever the
    numbers of rows of [rR] and [vI] are. *)
Theorem inert2rotV_shape (rR vI t_norm a : ndarray) :
  inert2rotV rR vI t_norm = Ok a ->
  exists rows : list (list float64),
    a = A2 3 rows /\ wf_ndarray a /\
    length rows =
    match t_norm with
    | A0 _ => 1%nat
    | A1 v => length v
    | A2 _ trows => length trows
    end.
Proof.
  unfold inert2rotV.
  destruct (inert2rotV_thetas t_norm) as [thetas|e] eqn:Hth; [|discriminate].
  cbn [bind].
  change (for_range _ (seq 0 (length thetas)) (np_zeros3 (length thetas)))
    with (assign_loop (inert2rotV_row rR vI thetas)
            (seq 0 (length thetas)) (np_zeros3 (length thetas))).
  destruct (assign_loop _ _ _) as [rows|e] eqn:Hloop; [|discriminate].
  cbn [bind]. intros [= <-]. exists rows. split; [reflexivity|]. split.
  - cbn [wf_ndarray].
    eapply assign_loop_Forall; [|apply zeros3_wf|exact Hloop].
    intros t r. apply inert2rotV_row_length.
  - apply assign_loop_length in Hloop. rewrite Hloop.
    unfold np_zeros3. rewrite length_replicate.
    apply inert2rotV_thetas_length. exact Hth.
Qed.

Lemma inert2rotV_shape_witness :
  exists (a : ndarray) (rows : list (list float64)),
    inert2rotV (A2 3 three_rR) (A2 3 three_v) (A1 two_angles) = Ok a /\
    a = A2 3 rows /\ wf_ndarray a /\ length rows = length two_angles.
Proof.
  assert (exists a,
    inert2rotV (A2 3 three_rR) (A2 3 three_v) (A1 two_angles) = Ok a)
    as [a Ha] by (eexists; reflexivity).
  destruct (inert2rotV_shape (A2 3 three_rR) (A2 3 three_v) (A1 two_angles)
              a Ha) as [rows Hrows].
  exists a, rows. split; [exact Ha | exact Hrows].
Defined.

(** X13: [rot2inertV] takes a one-dimensional [rR] whose length is not 3
    for a batch.  A zero-dimensional [rR] raises IndexError at the shape
    test, a one-dimensional one of a length other than 0 and 3 raises
    IndexError at the first row access, and an empty one returns the
    empty array of 3 columns; [vR] is not looked at. *)
Theorem rot2inertV_position_shapes (vR : ndarray) (t_norm : float64) :
  (forall x, rot2inertV (A0 x) vR t_norm = Raise IndexError) /\
  (forall v, v <> [] -> length v <> 3%nat ->
             rot2inertV (A1 v) vR t_norm = Raise IndexError) /\
  rot2inertV (A1 []) vR t_norm = Ok (A2 3 []).
Proof.
  split; [reflexivity|]. split; [|reflexivity].
  intros v Hne Hlen. unfold rot2inertV. cbn [shape0 bind ndim Nat.eqb].
  destruct (Nat.eqb_spec (length v) 3); [contradiction|].
  cbn [andb np_len bind].
  destruct v as [|x v]; [contradiction|]. reflexivity.
Qed.

(** X14: [inert2rotV] wraps a [t_norm] of size one, also when it is
    already a sequence.  A one-element sequence of angles becomes a
    sequence of one array, [rot] is called with an array for an angle, and
    the call raises ValueError (numpy 1.24 and later) for every [rR] and
    [vI]: a batch of one sample must pass its angle as a scalar.  A
    two-dimensional [t_norm] with a row raises the same way. *)
Theorem inert2rotV_one_angle_sequence (rR vI : ndarray) :
  (forall th, inert2rotV rR vI (A1 [th]) = Raise ValueError) /\
  (forall ncols rows, rows <> [] ->
                      inert2rotV rR vI (A2 ncols rows) = Raise ValueError).
Proof.
  split; [reflexivity|].
  intros ncols rows Hne. unfold inert2rotV, inert2rotV_thetas.
  destruct rows as [|r rest]; [contradiction|].
  destruct (size (A2 ncols (r :: rest)) =? 1)%nat; reflexivity.
Qed.

Lemma inert2rotV_one_angle_sequence_witness :
  inert2rotV (A2 3 three_rR) (A2 3 three_v) (A2 1 [[Fin 0]; [Fin 1]])
  = Raise ValueError.
Proof.
  apply (proj2 (inert2rotV_one_angle_sequence (A2 3 three_rR) (A2 3 three_v))).
  discriminate.
Defined.

(** X15: unlike [rot2inertV], [inert2rotV] has no branch for a single
    vector: with a scalar angle, a zero- or one-dimensional [vI] raises
    IndexError, and so does a zero- or one-dimensional [rR] with a
    well-formed [vI]. *)
Theorem inert2rotV_single_vector (th : float64) :
  (forall rR vI, ndim vI <> 2%nat ->
                 inert2rotV rR vI (A0 th) = Raise IndexError) /\
  (forall rR a b c vs, ndim rR <> 2%nat ->
                       inert2rotV rR (A2 3 ([a; b; c] :: vs)) (A0 th)
                       = Raise IndexError).
Proof.
  split.
  - intros rR vI Hd. destruct vI as [x|v|n rows]; cbn in Hd;
      [reflexivity | reflexivity | contradiction].
  - intros rR a b c vs Hd. destruct rR as [x|v|n rows]; cbn in Hd;
      [reflexivity | reflexivity | contradiction].
Qed.

Lemma rot2inertV_position_shapes_witness :
  rot2inertV (A1 [Fin 1; Fin 2]) (A0 NaN) (Fin 0) = Raise IndexError.
Proof.
  apply (proj1 (proj2 (rot2inertV_position_shapes (A0 NaN) (Fin 0)))).
  - discriminate.
  - cbn. lia.
Defined.

Lemma inert2rotV_single_vector_witness :
  inert2rotV (A1 [Fin 1; Fin 0; Fin 0]) (A1 [Fin 0; Fin 1; Fin 0]) (A0 (Fin 0))
  = Raise IndexError.
Proof.
  apply (proj1 (inert2rotV_single_vector (Fin 0))). cbn. lia.
Defined.

(** A row of [rot2inertV] reads row [t] of the two batches and nothing
    else of them. *)
Lemma rot2inertV_row_local (c c' d d' : nat)
  (rs rs' vs vs' : list (list float64)) (t_norm : float64) (t : nat) :
  rs !! t = rs' !! t -> vs !! t = vs' !! t ->
  rot2inertV_row (A2 c rs) (A2 d vs) t_norm t
  = rot2inertV_row (A2 c' rs') (A2 d' vs') t_norm t.
Proof.
  intros Hr Hv. unfold rot2inertV_row, rowslice, item2.
  rewrite Hr, Hv. reflexivity.
Qed.

Lemma rot2inertV_row_ok (rs vs : list (list float64)) (t_norm : float64)
  (t : nat) :
  Forall (fun r => length r = 3%nat) rs ->
  Forall (fun v => length v = 3%nat) vs ->
  (t < length rs)%nat -> (t < length vs)%nat ->
  exists row : list float64,
    rot2inertV_row (A2 3 rs) (A2 3 vs) t_norm t = Ok row.
Proof.
  intros Hrs Hvs Hr Hv.
  destruct (lookup_lt_is_Some_2 rs t Hr) as [r Hrt].
  destruct (lookup_lt_is_Some_2 vs t Hv) as [v Hvt].
  destruct (length3_inv r) as (x & y & z & ->);
    [eapply Forall_lookup_1 in Hrs; eauto|].
  destruct (length3_inv v) as (a & b & c & ->);
    [eapply Forall_lookup_1 in Hvs; eauto|].
  unfold rot2inertV_row, rowslice, item2.
  rewrite Hrt, Hvt. eexists. reflexivity.
Qed.

Lemma rot2inertV_row_past_end (rs vs : list (list float64))
  (t_norm : float64) (t : nat) :
  Forall (fun r => length r = 3%nat) rs ->
  (t < length rs)%nat -> (length vs <= t)%nat ->
  rot2inertV_row (A2 3 rs) (A2 3 vs) t_norm t = Raise IndexError.
Proof.
  intros Hrs Hr Hv.
  destruct (lookup_lt_is_Some_2 rs t Hr) as [r Hrt].
  destruct (length3_inv r) as (x & y & z & ->);
    [eapply Forall_lookup_1 in Hrs; eauto|].
  unfold rot2inertV_row, rowslice, item2.
  rewrite Hrt, (lookup_ge_None_2 vs t Hv). reflexivity.
Qed.

(** X16: [rot2inertV] loops over the rows of [rR] and compares no
    lengths.  On two batches of 3-vectors: when [vR] has at least as many
    rows as [rR], the further rows of [vR] are ignored (the result is the
    one on [vR] cut to the length of [rR]); when [vR] has fewer rows, the
    call raises IndexError. *)
Theorem rot2inertV_lengths (rs vs : list (list float64)) (t_norm : float64) :
  wf_ndarray (A2 3 rs) ->
  wf_ndarray (A2 3 vs) ->
  ((length rs <= length vs)%nat ->
   exists rows : list (list float64),
     rot2inertV (A2 3 rs) (A2 3 vs) t_norm = Ok (A2 3 rows) /\
     rot2inertV (A2 3 rs) (A2 3 (take (length rs) vs)) t_norm
     = Ok (A2 3 rows)) /\
  ((length vs < length rs)%nat ->
   rot2inertV (A2 3 rs) (A2 3 vs) t_norm = Raise IndexError).
Proof.
  cbn [wf_ndarray]. intros Hrs Hvs.
  unfold rot2inertV. cbn [shape0 bind ndim Nat.eqb].
  rewrite andb_false_r. cbn [np_len bind].
  set (row := rot2inertV_row (A2 3 rs) (A2 3 vs) t_norm).
  split.
  - intros Hle.
    set (rows := (fun t => row_of (row t)) <$> seq 0 (length rs)).
    assert (length rows = length rs) as Hlen.
    { unfold rows. rewrite length_fmap, length_seq. reflexivity. }
    assert (forall i r, rows !! i = Some r -> row i = Ok r) as Hrow.
    { intros i r Hi. unfold rows in Hi.
      apply list_lookup_fmap_Some in Hi as (t & -> & Ht).
      apply lookup_seq in Ht as [-> Hlt]. cbn [Nat.add].
      destruct (rot2inertV_row_ok rs vs t_norm i Hrs Hvs) as [r Hr];
        try lia.
      unfold row. rewrite Hr. reflexivity. }
    exists rows. split.
    + change (for_range _ (seq 0 (length rs)) (np_zeros3 (length rs)))
        with (assign_loop row (seq 0 (length rs))
                (replicate (length rs) [Fin 0; Fin 0; Fin 0])).
      rewrite (assign_loop_fill row (length rs) _ rows Hlen Hrow).
      reflexivity.
    + set (row' := rot2inertV_row (A2 3 rs) (A2 3 (take (length rs) vs))
                     t_norm).
      change (for_range _ (seq 0 (length rs)) (np_zeros3 (length rs)))
        with (assign_loop row' (seq 0 (length rs))
                (replicate (length rs) [Fin 0; Fin 0; Fin 0])).
      rewrite (assign_loop_fill row' (length rs) _ rows Hlen);
        [reflexivity|].
      intros i r Hi. rewrite <- (Hrow i r Hi).
      apply lookup_lt_Some in Hi. rewrite Hlen in Hi.
      unfold row', row. apply rot2inertV_row_local;
        [reflexivity | apply lookup_take_lt; exact Hi].
  - intros Hshort.
    change (for_range _ (seq 0 (length rs)) (np_zeros3 (length rs)))
      with (assign_loop row (seq 0 (length rs))
              (replicate (length rs) [Fin 0; Fin 0; Fin 0])).
    rewrite (assign_loop_raise row IndexError (length rs) 0 (length vs));
      [reflexivity| | |].
    + lia.
    + intros i Hi. cbn [Nat.add].
      apply rot2inertV_row_ok; auto; lia.
    + cbn [Nat.add]. apply rot2inertV_row_past_end; auto; lia.
Qed.

Lemma rot2inertV_lengths_witness :
  wf_ndarray (A2 3 (take 2 three_rR)) /\
  wf_ndarray (A2 3 three_v) /\
  ((length (take 2 three_rR) <= length three_v)%nat ->
   exists rows : list (list float64),
     rot2inertV (A2 3 (take 2 three_rR)) (A2 3 three_v) (Fin 0)
     = Ok (A2 3 rows) /\
     rot2inertV (A2 3 (take 2 three_rR))
       (A2 3 (take (length (take 2 three_rR)) three_v)) (Fin 0)
     = Ok (A2 3 rows)) /\
  ((length three_v < length (take 2 three_rR))%nat ->
   rot2inertV (A2 3 (take 2 three_rR)) (A2 3 three_v) (Fin 0)
   = Raise IndexError).
Proof.
  assert (wf_ndarray (A2 3 (take 2 three_rR))) as Hr by (repeat constructor).
  assert (wf_ndarray (A2 3 three_v)) as Hv by (repeat constructor).
  split; [exact Hr|]. split; [exact Hv|].
  exact (rot2inertV_lengths (take 2 three_rR) three_v (Fin 0) Hr Hv).
Defined.

(** ** What the conversions do not read *)

Section LoopExtensionality.
Context {A : Type}.

Lemma assign_loop_ext (row row' : nat -> result A) (ts : list nat) :
  (forall t, row t = row' t) ->
  forall s, assign_loop row ts s = assign_loop row' ts s.
Proof.
  intros Hrow. induction ts as [|t ts IH]; intros s; [reflexivity|].
  cbn [assign_loop for_range]. rewrite Hrow.
  destruct (row' t) as [r|e]; [|reflexivity]. cbn [bind]. apply IH.
Qed.

End LoopExtensionality.

(** Two batches of positions that agree on their first two columns. *)
Lemma same_xy_item2 (c c' : nat) (rs rs' : list (list float64)) (t j : nat) :
  Forall2 (fun r r' : list float64 => take 2 r = take 2 r') rs rs' ->
  (j < 2)%nat ->
  item2 (A2 c rs) t j = item2 (A2 c' rs') t j.
Proof.
  intros Hxy Hj. unfold item2.
  destruct (rs !! t) as [r|] eqn:Hr.
  - destruct (Forall2_lookup_l _ _ _ _ _ Hxy Hr) as (r' & Hr' & Heq).
    rewrite Hr'.
    rewrite <- (lookup_take_lt r 2 j Hj), <- (lookup_take_lt r' 2 j Hj), Heq.
    reflexivity.
  - destruct (rs' !! t) as [r'|] eqn:Hr'; [|reflexivity].
    destruct (Forall2_lookup_r _ _ _ _ _ Hxy Hr') as (r & Hr2 & _).
    congruence.
Qed.

(** X18: neither velocity conversion reads the third column of the
    positions: two batches [rR] that agree on their first two columns
    give the same result (or the same error), with any number of columns,
    in [rot2inertV] and in [inert2rotV]; and so do two single positions
    that differ in z. *)
Theorem velocity_ignores_z (c c' : nat) (rs rs' : list (list float64))
  (vR vI t_norm : ndarray) (th : float64) :
  Forall2 (fun r r' : list float64 => take 2 r = take 2 r') rs rs' ->
  rot2inertV (A2 c rs) vR th = rot2inertV (A2 c' rs') vR th /\
  inert2rotV (A2 c rs) vI t_norm = inert2rotV (A2 c' rs') vI t_norm /\
  (forall x y z z',
     rot2inertV (A1 [x; y; z]) vR th = rot2inertV (A1 [x; y; z']) vR th).
Proof.
  intros Hxy. pose proof (Forall2_length _ _ _ Hxy) as Hlen.
  split; [|split].
  - unfold rot2inertV. cbn [shape0 bind ndim Nat.eqb].
    rewrite !andb_false_r. cbn [np_len bind]. rewrite <- Hlen.
    change (for_range _ (seq 0 (length rs)) (np_zeros3 (length rs)))
      with (assign_loop (rot2inertV_row (A2 c rs) vR th)
              (seq 0 (length rs)) (np_zeros3 (length rs))) at 1.
    change (for_range _ (seq 0 (length rs)) (np_zeros3 (length rs)))
      with (assign_loop (rot2inertV_row (A2 c' rs') vR th)
              (seq 0 (length rs)) (np_zeros3 (length rs))).
    rewrite (assign_loop_ext (rot2inertV_row (A2 c rs) vR th)
               (rot2inertV_row (A2 c' rs') vR th)); [reflexivity|].
    intros t. unfold rot2inertV_row.
    rewrite (same_xy_item2 c c' rs rs' t 1 Hxy) by lia.
    rewrite (same_xy_item2 c c' rs rs' t 0 Hxy) by lia.
    reflexivity.
  - unfold inert2rotV.
    destruct (inert2rotV_thetas t_norm) as [thetas|e]; [|reflexivity].
    cbn [bind].
    change (for_range _ (seq 0 (length thetas)) (np_zeros3 (length thetas)))
      with (assign_loop (inert2rotV_row (A2 c rs) vI thetas)
              (seq 0 (length thetas)) (np_zeros3 (length thetas))) at 1.
    change (for_range _ (seq 0 (length thetas)) (np_zeros3 (length thetas)))
      with (assign_loop (inert2rotV_row (A2 c' rs') vI thetas)
              (seq 0 (length thetas)) (np_zeros3 (length thetas))).
    rewrite (assign_loop_ext (inert2rotV_row (A2 c rs) vI thetas)
               (inert2rotV_row (A2 c' rs') vI thetas)); [reflexivity|].
    intros t. unfold inert2rotV_row.
    rewrite (same_xy_item2 c c' rs rs' t 1 Hxy) by lia.
    rewrite (same_xy_item2 c c' rs rs' t 0 Hxy) by lia.
    reflexivity.
  - reflexivity.
Qed.

Lemma velocity_ignores_z_witness :
  rot2inertV (A2 3 [[Fin 1; Fin 2; Fin 3]]) (A2 3 three_v) (Fin 0)
  = rot2inertV (A2 2 [[Fin 1; Fin 2]]) (A2 3 three_v) (Fin 0) /\
  inert2rotV (A2 3 [[Fin 1; Fin 2; Fin 3]]) (A2 3 three_v) (A0 (Fin 0))
  = inert2rotV (A2 2 [[Fin 1; Fin 2]]) (A2 3 three_v) (A0 (Fin 0)) /\
  (forall x y z z',
     rot2inertV (A1 [x; y; z]) (A2 3 three_v) (Fin 0)
     = rot2inertV (A1 [x; y; z']) (A2 3 three_v) (Fin 0)).
Proof.
  apply (velocity_ignores_z 3 2 [[Fin 1; Fin 2; Fin 3]] [[Fin 1; Fin 2]]
           (A2 3 three_v) (A2 3 three_v) (A0 (Fin 0)) (Fin 0)).
  repeat constructor.
Defined.

Section KernelProperties.
Context {collab : Collaborators}.

(** X19: [body2geo] reads the kernel at one place only, the segment
    (0, 3) at the Julian date of the epoch: two kernels that agree there
    give the same result, whatever else they hold. *)
Theorem body2geo_reads_one_segment (currentTime : Time.t)
  (kernel kernel' : Kernel) (equinox : TimeArray.t) :
  kernel 0%Z 3%Z (Time.jd currentTime) = kernel' 0%Z 3%Z (Time.jd currentTime) ->
  body2geo currentTime kernel equinox = body2geo currentTime kernel' equinox.
Proof. intros Hk. unfold body2geo. rewrite Hk. reflexivity. Qed.

End KernelProperties.

Lemma body2geo_reads_one_segment_witness :
  body2geo (collab := spec_collaborators) epoch0 kernel_on_y equinox0
  = body2geo (collab := spec_collaborators) epoch0
      (fun i j _ => if (i =? 0)%Z && (j =? 3)%Z then Ok barycentre_on_y
                    else Raise CollaboratorError)
      equinox0.
Proof.
  apply (body2geo_reads_one_segment (collab := spec_collaborators)).
  reflexivity.
Defined.

(** ** [inert2rotV] sample by sample *)

Lemma inert2rotV_row_alone (rs vs : list (list float64)) (ths : list float64)
  (t : nat) (th : float64) (r v : list float64) :
  ths !! t = Some th -> rs !! t = Some r -> vs !! t = Some v ->
  length r = 3%nat -> length v = 3%nat ->
  let row := row_of (inert2rotV_row (A2 3 [r]) (A2 3 [v]) [A0 th] 0) in
  inert2rotV_row (A2 3 rs) (A2 3 vs) (A0 <$> ths) t = Ok row /\
  inert2rotV (A2 3 [r]) (A2 3 [v]) (A0 th) = Ok (A2 3 [row]).
Proof.
  intros Hth Hr Hv [x [y [z ->]]]%length3_inv [a [b [c ->]]]%length3_inv.
  unfold inert2rotV_row, item2, rowslice.
  rewrite list_lookup_fmap, Hth, Hr, Hv. split; reflexivity.
Qed.

(** X20: a batch call of [inert2rotV] is the single calls put together:
    for N angles (N not 1) and two N x 3 batches, row t of the result is
    the row [inert2rotV] returns on sample t alone with the scalar angle
    [t_norm[t]]. *)
Theorem inert2rotV_batch (ths : list float64) (rs vs : list (list float64)) :
  length ths <> 1%nat ->
  wf_ndarray (A2 3 rs) ->
  wf_ndarray (A2 3 vs) ->
  length rs = length ths ->
  length vs = length ths ->
  exists rows : list (list float64),
    inert2rotV (A2 3 rs) (A2 3 vs) (A1 ths) = Ok (A2 3 rows) /\
    Forall2
      (fun s row =>
         inert2rotV (A2 3 [s.2.1]) (A2 3 [s.2.2]) (A0 s.1) = Ok (A2 3 [row]))
      (zip ths (zip rs vs)) rows.
Proof.
  cbn [wf_ndarray]. intros Hn Hrs Hvs Hlr Hlv.
  set (alone := fun s : float64 * (list float64 * list float64) =>
         row_of (inert2rotV_row (A2 3 [s.2.1]) (A2 3 [s.2.2]) [A0 s.1] 0)).
  exists (alone <$> zip ths (zip rs vs)). split.
  - unfold inert2rotV. rewrite (inert2rotV_thetas_seq ths Hn). cbn [bind].
    rewrite length_fmap.
    change (for_range _ (seq 0 (length ths)) (np_zeros3 (length ths)))
      with (assign_loop (inert2rotV_row (A2 3 rs) (A2 3 vs) (A0 <$> ths))
              (seq 0 (length ths))
              (replicate (length ths) [Fin 0; Fin 0; Fin 0])).
    rewrite (assign_loop_fill _ (length ths) _
               (alone <$> zip ths (zip rs vs))); [reflexivity| |].
    + rewrite length_fmap, !length_zip. lia.
    + intros i row Hi.
      apply list_lookup_fmap_Some in Hi as ([th [r v]] & -> & Hi).
      apply lookup_zip_with_Some in Hi as (th' & rv & [= -> <-] & Hth & Hrv).
      apply lookup_zip_with_Some in Hrv as (r' & v' & [= -> ->] & Hr & Hv).
      eapply (inert2rotV_row_alone rs vs ths i th' r' v'); eauto.
      * eapply Forall_lookup_1 in Hrs; eauto.
      * eapply Forall_lookup_1 in Hvs; eauto.
  - apply Forall2_fmap_r, Forall_Forall2_diag, Forall_lookup.
    intros i [th [r v]] Hi.
    apply lookup_zip_with_Some in Hi as (th' & rv & [= -> <-] & Hth & Hrv).
    apply lookup_zip_with_Some in Hrv as (r' & v' & [= -> ->] & Hr & Hv).
    cbn [fst snd].
    eapply (inert2rotV_row_alone rs vs ths i th' r' v'); eauto.
    + eapply Forall_lookup_1 in Hrs; eauto.
    + eapply Forall_lookup_1 in Hvs; eauto.
Qed.

Lemma inert2rotV_batch_witness :
  exists rows : list (list float64),
    inert2rotV (A2 3 (take 2 three_rR)) (A2 3 (take 2 three_v))
      (A1 two_angles) = Ok (A2 3 rows) /\
    Forall2
      (fun s row =>
         inert2rotV (A2 3 [s.2.1]) (A2 3 [s.2.2]) (A0 s.1) = Ok (A2 3 [row]))
      (zip two_angles (zip (take 2 three_rR) (take 2 three_v))) rows.
Proof.
  apply (inert2rotV_batch two_angles (take 2 three_rR) (take 2 three_v)).
  - cbn. lia.
  - repeat constructor.
  - repeat constructor.
  - reflexivity.
  - reflexivity.
Defined.
